(** * Variable spaces of ReFrame regression tests

    A shallow embedding of [reframe/core/variables.py]: the variable
    directives ([TestVar], [DefineVar], [UndefineVar]) and the variable
    space ([VarSpace]) with its [join], [extend], [sanity] and [inject]
    methods, followed by the properties of the namespace composition.

    Python objects that are mutated through more than one reference
    (the [TestVar] instances) live in an explicit heap and are referred to
    by location; every [VarSpace] owns its dictionary and its set of
    injected names, so a variable space is threaded as a value. *)

From Stdlib Require Import ZArith Ascii.
From stdpp Require Import gmap strings pretty list fin_maps sorting.

Open Scope string_scope.
Open Scope list_scope.

(** ** Python values *)

(** The values that flow through the variable machinery.  [_Undefined] is
    the singleton of [_UndefinedType]; it is compared by identity only.
    [PyType q] is a class object and no other value is a class.
    [PyFieldInstance ft args kwargs n] is the object built by the call
    [ft( *args, **kwargs)] of a field class, with the name [n] it was
    bound to by [__set_name__]. *)
#[local] Unset Elimination Schemes.
Inductive pyobj : Type :=
  | _Undefined
  | PyNone
  | PyBool (b : bool)
  | PyInt (z : Z)
  | PyStr (s : string)
  | PyType (qualname : string)
  | PyOther (id : positive)
  | PyFieldInstance (field_type : pyobj) (args : list pyobj)
                    (kwargs : list (string * pyobj)) (_name : option string).
#[local] Set Elimination Schemes.

(** Whether [x] is a class: what [issubclass(x, ...)] requires of its first
    argument. *)
Definition is_class (x : pyobj) : bool :=
  match x with
  | PyType _ => true
  | _ => false
  end.

(** [x is not _Undefined] *)
Definition is_not_Undefined (x : pyobj) : bool :=
  match x with
  | _Undefined => false
  | _ => true
  end.

(** ** Insertion-ordered dictionaries *)

(** A Python [dict]: an association list in insertion order.  A dictionary
    never holds a key twice; [dict_wf] states it. *)
Abbreviation dict V := (list (string * V)).

Section dict.
Context {V : Type}.

Definition keys (d : dict V) : list string := d.*1.

Definition dict_wf (d : dict V) : Prop := NoDup (keys d).

(** [key in d] *)
Definition dict_contains (d : dict V) (key : string) : bool :=
  bool_decide (key ∈ keys d).

(** [d.get(key)] *)
Fixpoint dict_get (d : dict V) (key : string) : option V :=
  match d with
  | [] => None
  | (k, v) :: d' => if decide (k = key) then Some v else dict_get d' key
  end.

(** [d[key] = v]: replaces the value in place when the key is present,
    appends a new entry otherwise. *)
Fixpoint dict_set (d : dict V) (key : string) (v : V) : dict V :=
  match d with
  | [] => [(key, v)]
  | (k, w) :: d' =>
      if decide (k = key) then (k, v) :: d' else (k, w) :: dict_set d' key v
  end.

(** [d.pop(key, dflt)]: the value and the dictionary without the key. *)
Definition dict_pop (d : dict V) (key : string) (dflt : V) : V * dict V :=
  (default dflt (dict_get d key),
   filter (λ kv, kv.1 ≠ key) d).
End dict.
#[global] Arguments keys : simpl never.

(** ** Errors and the exception-state monad *)

(** Every failure that the module raises itself is a Python [ValueError];
    the constructors tell the messages apart and carry what the message
    interpolates.
    - [InvalidFieldTypeError]: "field ... is not derived from Field"
    - [DuplicateDeclarationError]: "variable ... is declared in more than
      one of the parent classes of class ..."
    - [RedeclarationError]: "cannot redeclare a variable (...)"
    - [UndeclaredVariableError]: "variable ... has not been declared"
    - [MultipleActionsError]: "cannot specify more than one action on
      variable ... in the same class"
    - [NameClashError]: "... already defined in class ..."
    [TypeError] is the built-in raised by [issubclass] when its first
    argument is not a class.
    [FieldSetError] stands for whatever the field raises when it rejects a
    value, [KeyError] is the built-in raised by [d[key]] on a missing key,
    and [ReferenceError] stands for a dictionary entry without an object,
    which no Python run can produce. *)
Inductive Error : Type :=
  | InvalidFieldTypeError (field_type : pyobj)
  | DuplicateDeclarationError (key cls : string)
  | RedeclarationError (key : string)
  | UndeclaredVariableError (key : string)
  | MultipleActionsError (key : string)
  | NameClashError (key cls : string)
  | FieldSetError (name : string) (value : pyobj)
  | KeyError (key : string)
  | ReferenceError (l : positive)
  | TypeError (arg : pyobj).

Inductive outcome (A : Type) : Type :=
  | Returned (a : A)
  | Raised (e : Error).
Arguments Returned {A} a.
Arguments Raised {A} e.

(** A method call: it reads and mutates a state and either returns or
    raises; the state reached when the exception is raised is kept, as the
    mutations made before a Python [raise] are. *)
Definition M (S A : Type) : Type := S → outcome A * S.

Definition ret {S A} (a : A) : M S A := λ s, (Returned a, s).
Definition raise {S A} (e : Error) : M S A := λ s, (Raised e, s).
Definition bind {S A B} (m : M S A) (k : A → M S B) : M S B :=
  λ s, match m s with
       | (Returned a, s') => k a s'
       | (Raised e, s') => (Raised e, s')
       end.
Definition get {S} : M S S := λ s, (Returned s, s).
Definition modify {S} (f : S → S) : M S unit := λ s, (Returned tt, f s).

#[global] Instance M_ret {S} : MRet (M S) := λ A, ret.
#[global] Instance M_bind {S} : MBind (M S) := λ A B k m, bind m k.

(** [for x in l: body(x)] *)
Fixpoint for_each {S A} (body : A → M S unit) (l : list A) : M S unit :=
  match l with
  | [] => ret tt
  | x :: l' => body x;; for_each body l'
  end.


(** ** The variable directives *)

Abbreviation loc := positive.

(** An instance of [TestVar]; [name] is set by [__set_name__]. *)
Record TestVar : Type := mkTestVar {
  field_type : pyobj;
  default_value : pyobj;
  args : list pyobj;
  kwargs : dict pyobj;
  name : option string
}.

(** [TestVar.is_defined] *)
Definition is_defined (self : TestVar) : bool :=
  is_not_Undefined (default_value self).

(** [TestVar.define] *)
Definition define (self : TestVar) (value : pyobj) : TestVar :=
  mkTestVar (field_type self) value (args self) (kwargs self) (name self).

(** [TestVar.undefine] *)
Definition undefine (self : TestVar) : TestVar :=
  mkTestVar (field_type self) _Undefined (args self) (kwargs self) (name self).

(** [TestVar.__set_name__] *)
Definition __set_name__ (self : TestVar) (name : string) : TestVar :=
  mkTestVar (field_type self) (default_value self) (args self) (kwargs self)
            (Some name).

(** What a local variable space holds under a name: a [TestVar] object (by
    reference), a [DefineVar(default_value)] or an [UndefineVar()]. *)
Inductive VarDirective : Type :=
  | TestVarRef (var : loc)
  | DefineVar (default_value : pyobj)
  | UndefineVar.

(** The [default_value] attribute of [DefineVar] and [UndefineVar]. *)
Definition directive_default_value (var : VarDirective) : pyobj :=
  match var with
  | DefineVar v => v
  | _ => _Undefined
  end.

(** ** Variable spaces and classes *)

(** A [VarSpace]: [vars] is [self._namespace], each value a reference to a
    [TestVar] object of the heap. *)
Record VarSpace : Type := mkVarSpace {
  vars : dict loc;
  _injected_vars : gset string
}.

(** What the module reads of a class [cls]: [cls.__qualname__], its local
    variable space [getattr(cls, '_rfm_local_var_space')], [cls.__dict__],
    and the member names it gets from its bases, so that [dir(cls)] is the
    names of its own dictionary and the inherited ones. *)
Record PyClass : Type := mkPyClass {
  __qualname__ : string;
  _rfm_local_var_space : dict VarDirective;
  __dict__ : dict pyobj;
  inherited_names : gset string
}.

Definition dir (cls : PyClass) : gset string :=
  list_to_set (keys (__dict__ cls)) ∪ inherited_names cls.

(** The objects reachable from a variable space under construction. *)
Record World : Type := mkWorld {
  heap : gmap loc TestVar;
  space : VarSpace
}.

(** The composed namespace as it is read through a variable space: each
    name with the variable object it refers to. *)
Definition view (h : gmap loc TestVar) (vs : VarSpace)
  : dict (option TestVar) :=
  (λ kv, (kv.1, h !! kv.2)) <$> vars vs.

(** What [inject] mutates: the variable space itself, the class [cls] and
    the instance dictionary of the object [obj]. *)
Record Target : Type := mkTarget {
  t_self : VarSpace;
  t_cls : PyClass;
  t_obj : gmap string pyobj
}.

(** Runs a method of the variable space in a world. *)
Definition on_space {A} (m : M VarSpace A) : M World A :=
  λ w, let '(r, vs) := m (space w) in (r, mkWorld (heap w) vs).

Section fields.

(** The module [reframe.core.fields] is imported, not defined here.
    [issubclass_Field t] is [issubclass(t, fields.Field)] for a class [t],
    and
    [Field___set__ f v] is what the descriptor [f] stores in the instance
    for [setattr(obj, name, v)], or [None] when it rejects [v]. *)
Variable issubclass_Field : pyobj → bool.
Variable Field___set__ : pyobj → pyobj → option pyobj.

Definition TypedField : pyobj := PyType "TypedField".

(** [TestVar.__init__( *args, **kwargs)] *)
Definition TestVar___init__ (args : list pyobj) (kwargs : dict pyobj)
  : outcome TestVar :=
  let '(field_type, kwargs) := dict_pop kwargs "field" TypedField in
  let '(default_value, kwargs) := dict_pop kwargs "value" _Undefined in
  if is_class field_type
  then
    if issubclass_Field field_type
    then Returned (mkTestVar field_type default_value args kwargs None)
    else Raised (InvalidFieldTypeError field_type)
  else Raised (TypeError field_type).

(** [VarSpace.__init__()] without a target class. *)
Definition VarSpace_empty : VarSpace := mkVarSpace [] ∅.

(** [self.vars[key] = var] *)
Definition vars_setitem (key : string) (var : loc) (self : VarSpace)
  : VarSpace :=
  mkVarSpace (dict_set (vars self) key var) (_injected_vars self).

(** The body of the loop of [join]. *)
Definition join_item (cls : PyClass) (item : string * loc)
  : M VarSpace unit :=
  let '(key, var) := item in
  self ← get;
  if dict_contains (vars self) key
  then raise (DuplicateDeclarationError key (__qualname__ cls))
  else modify (vars_setitem key var).

(** [VarSpace.join] *)
Definition join (other : VarSpace) (cls : PyClass) : M VarSpace unit :=
  for_each (join_item cls) (vars other);;
  modify (λ self, mkVarSpace (vars self)
                    (_injected_vars self ∪ _injected_vars other)).

(** [VarSpace._check_var_is_declared] *)
Definition _check_var_is_declared (key : string) : M VarSpace unit :=
  self ← get;
  if dict_contains (vars self) key then ret tt
  else raise (UndeclaredVariableError key).

(** [self.vars[key].define(value)] *)
Definition vars_define (key : string) (value : pyobj) : M World unit :=
  w ← get;
  match dict_get (vars (space w)) key with
  | Some l =>
      modify (λ w, mkWorld (alter (λ var, define var value) l (heap w))
                     (space w))
  | None => raise (KeyError key)
  end.

(** The body of the first loop of [extend]. *)
Definition extend_local (item : string * VarDirective) : M World unit :=
  let '(key, var) := item in
  match var with
  | TestVarRef l =>
      w ← get;
      if dict_contains (vars (space w)) key
      then raise (RedeclarationError key)
      else on_space (modify (vars_setitem key l))
  | _ =>
      on_space (_check_var_is_declared key);;
      vars_define key (directive_default_value var)
  end.

(** The body of the second loop of [extend]. *)
Definition extend_body (local_varspace : dict VarDirective)
    (item : string * pyobj) : M World unit :=
  let '(key, value) := item in
  w ← get;
  if dict_contains local_varspace key
  then raise (MultipleActionsError key)
  else if dict_contains (vars (space w)) key
  then on_space (_check_var_is_declared key);; vars_define key value
  else ret tt.

(** [VarSpace.extend] *)
Definition extend (cls : PyClass) : M World unit :=
  let local_varspace := _rfm_local_var_space cls in
  for_each extend_local local_varspace;;
  for_each (extend_body local_varspace) (__dict__ cls).

(** The body of the loop of [sanity]. *)
Definition sanity_key (cls : PyClass) (illegal_names : gset string)
    (key : string) : M VarSpace unit :=
  self ← get;
  if bool_decide (key ∈ illegal_names)
     && negb (bool_decide (key ∈ _injected_vars self))
  then raise (NameClashError key (__qualname__ cls))
  else ret tt.

(** [VarSpace.sanity] *)
Definition sanity (cls : PyClass) (illegal_names : option (gset string))
  : M VarSpace unit :=
  let illegal_names :=
    match illegal_names with
    | None => dir cls
    | Some names => names
    end in
  self ← get;
  for_each (sanity_key cls illegal_names) (keys (vars self)).

(** [setattr(cls, name, value)] *)
Definition setattr_cls (name : string) (value : pyobj) : M Target unit :=
  modify (λ t,
    let c := t_cls t in
    mkTarget (t_self t)
      (mkPyClass (__qualname__ c) (_rfm_local_var_space c)
         (dict_set (__dict__ c) name value) (inherited_names c))
      (t_obj t)).

(** [Field.__set_name__]: the field records the name it is bound to. *)
Definition Field___set_name__ (f : pyobj) (name : string) : pyobj :=
  match f with
  | PyFieldInstance ft a k _ => PyFieldInstance ft a k (Some name)
  | _ => f
  end.

(** [getattr(cls, name).__set_name__(obj, name)] *)
Definition cls_set_name (name : string) : M Target unit :=
  t ← get;
  match dict_get (__dict__ (t_cls t)) name with
  | Some f => setattr_cls name (Field___set_name__ f name)
  | None => raise (KeyError name)
  end.

(** [setattr(obj, name, value)], through the descriptor that the class
    has under [name]. *)
Definition setattr_obj (name : string) (value : pyobj) : M Target unit :=
  t ← get;
  match dict_get (__dict__ (t_cls t)) name with
  | Some f =>
      match Field___set__ f value with
      | Some stored =>
          modify (λ t, mkTarget (t_self t) (t_cls t)
                         (<[name := stored]> (t_obj t)))
      | None => raise (FieldSetError name value)
      end
  | None =>
      modify (λ t, mkTarget (t_self t) (t_cls t)
                     (<[name := value]> (t_obj t)))
  end.

(** [self._injected_vars.add(name)] *)
Definition injected_add (name : string) : M Target unit :=
  modify (λ t,
    mkTarget (mkVarSpace (vars (t_self t))
                ({[name]} ∪ _injected_vars (t_self t)))
      (t_cls t) (t_obj t)).

(** The body of the loop of [inject]. *)
Definition inject_item (h : gmap loc TestVar) (item : string * loc)
  : M Target unit :=
  let '(name, l) := item in
  match h !! l with
  | None => raise (ReferenceError l)
  | Some var =>
      setattr_cls name
        (PyFieldInstance (field_type var) (args var) (kwargs var) None);;
      cls_set_name name;;
      (if is_defined var then setattr_obj name (default_value var)
       else ret tt);;
      injected_add name
  end.

(** [VarSpace.inject] *)
Definition inject (h : gmap loc TestVar) : M Target unit :=
  t ← get;
  for_each (inject_item h) (vars (t_self t)).

(** Modelled from the spec: [Namespace.inherit] of
    [reframe/core/namespaces.py], which is not among the sources; the
    composed namespaces of the ancestors are joined, in their order, into
    the namespace being built. *)
Definition inherit (bases : list VarSpace) (cls : PyClass)
  : M VarSpace unit :=
  for_each (λ base, join base cls) bases.

(** Modelled from the spec: [Namespace.__init__] with a target class, of
    [reframe/core/namespaces.py]: a new namespace inherits from the
    ancestors, is extended with the local namespace and is then checked
    by [sanity]. *)
Definition VarSpace___init__ (bases : list VarSpace) (cls : PyClass)
    (illegal_names : option (gset string)) (h : gmap loc TestVar)
  : outcome unit * World :=
  (on_space (inherit bases cls);;
   extend cls;;
   on_space (sanity cls illegal_names)) (mkWorld h VarSpace_empty).

End fields.

(** ** Auxiliary notions *)

(** The composed namespace only grows during a call: the bindings it had
    are kept in their order, and the injected names are not touched. *)
Definition grows (s s' : VarSpace) : Prop :=
  vars s `prefix_of` vars s' ∧ _injected_vars s' = _injected_vars s.

(** The errors that [extend] raises by its own [raise] statements. *)
Definition extend_error (e : Error) : Prop :=
  match e with
  | RedeclarationError _ | UndeclaredVariableError _
  | MultipleActionsError _ => True
  | _ => False
  end.

(** The field object that [inject] leaves in the class under [name] for
    the variable [var]: built from the field type and the arguments of the
    variable, and bound to the name. *)
Definition slot_of (name : string) (var : TestVar) : pyobj :=
  PyFieldInstance (field_type var) (args var) (kwargs var) (Some name).

(** The class [c] after [setattr(c, name, f)]. *)
Definition bind_slot (name : string) (f : pyobj) (c : PyClass) : PyClass :=
  mkPyClass (__qualname__ c) (_rfm_local_var_space c)
    (dict_set (__dict__ c) name f) (inherited_names c).

(** Every binding of the namespace refers to an object of the heap. *)
Definition allocated (h : gmap loc TestVar) (vs : VarSpace) : Prop :=
  ∀ k l, (k, l) ∈ vars vs → is_Some (h !! l).

(** What a call may do to the variable objects: the namespace grows, and
    an object is either as before or is bound in the namespace and differs
    from what it was by its default value only. *)
Definition touches_defaults (w w' : World) : Prop :=
  grows (space w) (space w')
  ∧ ∀ l, heap w' !! l = heap w !! l
         ∨ (l ∈ (vars (space w')).*2
            ∧ ∃ tv v, heap w !! l = Some tv
                      ∧ heap w' !! l = Some (define tv v)).

(** ** A small hierarchy of tests

    [Base] declares [timeout] with the default 10; [Mid] derives from
    [Base] and sets [timeout] to 20, through a [DefineVar] in [Mid] and
    through an assignment in the class body in [Mid_assign]; [Leaf]
    declares [retries] with the default 3 and undefines [timeout]. *)
Module Hierarchy.

Definition timeout_var : TestVar :=
  mkTestVar TypedField (PyInt 10) [PyType "int"] [] (Some "timeout").

Definition retries_var : TestVar :=
  mkTestVar TypedField (PyInt 3) [PyType "int"] [] (Some "retries").

Definition heap0 : gmap loc TestVar :=
  {[ 1%positive := timeout_var; 2%positive := retries_var ]}.

Definition Base : PyClass :=
  mkPyClass "Base" [("timeout", TestVarRef 1)]
    [("__module__", PyStr "checks")] ∅.

Definition Mid : PyClass :=
  mkPyClass "Mid" [("timeout", DefineVar (PyInt 20))]
    [("__module__", PyStr "checks")] ∅.

Definition Mid_assign : PyClass :=
  mkPyClass "Mid" [] [("__module__", PyStr "checks"); ("timeout", PyInt 20)] ∅.

Definition Mid_undefine : PyClass :=
  mkPyClass "Mid" [("timeout", UndefineVar)]
    [("__module__", PyStr "checks")] ∅.

Definition Leaf : PyClass :=
  mkPyClass "Leaf" [("retries", TestVarRef 2); ("timeout", UndefineVar)]
    [("__module__", PyStr "checks")] ∅.

(** The composed namespace of [Base]. *)
Definition Base_space : VarSpace := mkVarSpace [("timeout", 1%positive)] ∅.

(** A second parent, which declares [retries]. *)
Definition Other_space : VarSpace :=
  mkVarSpace [("retries", 2%positive)] {["retries"]}.

(** A parent that declares both names. *)
Definition Both_space : VarSpace :=
  mkVarSpace [("retries", 2%positive); ("timeout", 3%positive)] ∅.

(** A class body that declares [timeout] and assigns it as well. *)
Definition Declare_and_assign : PyClass :=
  mkPyClass "Solo" [("timeout", TestVarRef 1)]
    [("__module__", PyStr "checks"); ("timeout", PyInt 20)] ∅.

(** A class body that undefines and assigns a name nobody declared. *)
Definition Undeclared_twice : PyClass :=
  mkPyClass "Solo" [("depth", UndefineVar)]
    [("__module__", PyStr "checks"); ("depth", PyInt 4)] ∅.

(** A class body that assigns a name nobody declared. *)
Definition Plain_attribute : PyClass :=
  mkPyClass "Solo" [] [("__module__", PyStr "checks"); ("depth", PyInt 4)] ∅.

(** A class body that sets [timeout] and then undefines a name nobody
    declared. *)
Definition Half_applied : PyClass :=
  mkPyClass "Mid" [("timeout", DefineVar (PyInt 20)); ("depth", UndefineVar)]
    [("__module__", PyStr "checks")] ∅.

(** A class that gets a member named [timeout] from an unrelated base. *)
Definition Unrelated_member : PyClass :=
  mkPyClass "Leaf" [] [("__module__", PyStr "checks")] {["timeout"]}.

(** The composed namespace of [Leaf] and the variable objects once [Leaf]
    has undefined [timeout]. *)
Definition Leaf_space : VarSpace :=
  mkVarSpace [("timeout", 1%positive); ("retries", 2%positive)] ∅.

Definition heap_leaf : gmap loc TestVar :=
  {[ 1%positive := undefine timeout_var; 2%positive := retries_var ]}.

(** A field that stores integers as they are and rejects anything else. *)
Definition int_field_set (f value : pyobj) : option pyobj :=
  match value with
  | PyInt _ => Some value
  | _ => None
  end.

(** A class that declares [timeout] while it gets a member of that name
    from an unrelated base. *)
Definition Declares_member : PyClass :=
  mkPyClass "Leaf" [("timeout", TestVarRef 1)]
    [("__module__", PyStr "checks")] {["timeout"]}.

End Hierarchy.

(** * The pretty printer

    A shallow embedding of the progress output of
    [reframe/frontend/printer.py]: [PrettyPrinter.__init__],
    [reset_progress], [separator], [status] and [timestamp].  The logger of
    [reframe.core.logging], to which the printer delegates, is the list of
    the records handed to it, each with its level; [color.colorize] and the
    formatted time are parameters.  Strings are sequences of characters with
    codes below 256. *)
Module Printer.

(** [color.YELLOW], [color.RED] and [color.GREEN]. *)
Inductive Color : Type := YELLOW | RED | GREEN.

Inductive Error : Type :=
  | ValueError (msg : string)
  | AttributeError (attr : string).

Inductive result (A : Type) : Type :=
  | Ok (a : A)
  | Raise (e : Error).
Arguments Ok {A} a.
Arguments Raise {A} e.

(** The attributes of a [PrettyPrinter]; the two progress attributes exist
    only once [reset_progress] has been called. *)
Record PrettyPrinter : Type := mkPrinter {
  colorize : bool;
  line_width : Z;
  status_width : Z;
  _progress_count : option Z;
  _progress_total : option Z
}.

(** [len(s)] *)
Definition len (s : string) : Z := Z.of_nat (String.length s).

(** [n * s] *)
Definition str_mul (n : Z) (s : string) : string :=
  Nat.iter (Z.to_nat n) (String.app s) "".

(** [s] between [left] and [right] spaces. *)
Definition pad (left right : Z) (s : string) : string :=
  str_mul left " " +:+ s +:+ str_mul right " ".

(** [s.ljust(width)] *)
Definition ljust (width : Z) (s : string) : string :=
  if (len s >=? width)%Z then s else pad 0 (width - len s) s.

(** [s.rjust(width)] *)
Definition rjust (width : Z) (s : string) : string :=
  if (len s >=? width)%Z then s else pad (width - len s) 0 s.

(** [s.center(width)]: when the padding is odd, the extra space goes to the
    left if the width is odd and to the right otherwise. *)
Definition center (width : Z) (s : string) : string :=
  let marg := (width - len s)%Z in
  if (marg <=? 0)%Z then s
  else
    let left := (marg / 2 + Z.land (Z.land marg width) 1)%Z in
    pad left (marg - left) s.

(** [c.isspace()] for a character with a code below 256. *)
Definition isspace (c : ascii) : bool :=
  let n := nat_of_ascii c in
  ((9 <=? n)%nat && (n <=? 13)%nat) || ((28 <=? n)%nat && (n <=? 32)%nat)
  || (n =? 133)%nat || (n =? 160)%nat.

(** [s.lstrip()] *)
Fixpoint lstrip (s : string) : string :=
  match s with
  | EmptyString => EmptyString
  | String c s' => if isspace c then lstrip s' else s
  end.

(** [s.rstrip()] *)
Fixpoint rstrip (s : string) : string :=
  match s with
  | EmptyString => EmptyString
  | String c s' =>
      match rstrip s' with
      | EmptyString => if isspace c then EmptyString else String c EmptyString
      | r => String c r
      end
  end.

(** [s.strip()] *)
Definition strip (s : string) : string := rstrip (lstrip s).

(** The statuses that are shown in yellow, those shown in red, and those
    that advance the progress counter. *)
Definition yellow_statuses : list string := ["ABORT"; "ABORTED"; "DRY"; "SKIP"].
Definition red_statuses : list string := ["FAIL"; "FAILED"; "ERROR"].
Definition progress_statuses : list string := ["ABORT"; "OK"; "SKIP"; "FAIL"].

Definition status_color (status_stripped : string) : Color :=
  if bool_decide (status_stripped ∈ yellow_statuses) then YELLOW
  else if bool_decide (status_stripped ∈ red_statuses) then RED
  else GREEN.

(** The justification step of [status]. *)
Definition justify (just : option string) (width : Z) (s : string) : string :=
  if decide (just = Some "center") then center width s
  else if decide (just = Some "right") then rjust width s
  else ljust width s.

Section logger.

(** The levels of the logger with [logging.INFO], [color.colorize] and the
    value of [time.strftime("%c%z")] at the call. *)
Variable level : Type.
Variable INFO : level.
Variable color_colorize : string → Color → string.
Variable strftime : string.

(** A call: it runs on a printer and the records logged so far. *)
Definition call (A : Type) : Type :=
  PrettyPrinter * list (level * string) →
  result A * (PrettyPrinter * list (level * string)).

(** [logging.getlogger().log(lvl, msg)] *)
Definition log (lvl : level) (msg : string) : call unit :=
  λ '(p, records), (Ok (), (p, records ++ [(lvl, msg)])).

(** [self.info(msg)], delegated to the logger. *)
Definition info (msg : string) : call unit := log INFO msg.

(** [PrettyPrinter.__init__] *)
Definition __init__ : PrettyPrinter := mkPrinter true 78 10 None None.

(** [PrettyPrinter.reset_progress] *)
Definition reset_progress (total_cases : Z) : call unit :=
  λ '(p, records),
    (Ok (),
     (mkPrinter (colorize p) (line_width p) (status_width p)
        (Some 0%Z) (Some total_cases),
      records)).

(** [PrettyPrinter.separator] *)
Definition separator (linestyle msg : string) : call unit :=
  λ '(p, records),
    if decide (linestyle = "short double line")
    then info ("[" +:+ str_mul (status_width p) "=" +:+ "] " +:+ msg)
           (p, records)
    else if decide (linestyle = "short single line")
    then info ("[" +:+ str_mul (status_width p) "-" +:+ "] " +:+ msg)
           (p, records)
    else (Raise (ValueError "unknown line style"), (p, records)).

(** [PrettyPrinter.status] *)
Definition status (st message : string) (just : option string)
    (lvl : level) : call unit :=
  λ '(p, records),
    let st := justify just (status_width p - 2) st in
    let status_stripped := strip st in
    let st :=
      if colorize p then color_colorize st (status_color status_stripped)
      else st in
    let final_msg := "[ " +:+ st +:+ " ] " in
    if bool_decide (status_stripped ∈ progress_statuses)
    then
      match _progress_count p, _progress_total p with
      | None, _ => (Raise (AttributeError "_progress_count"), (p, records))
      | Some _, None =>
          (Raise (AttributeError "_progress_total"), (p, records))
      | Some count, Some total =>
          let count := if (count <? total)%Z then (count + 1)%Z else count in
          let p := mkPrinter (colorize p) (line_width p) (status_width p)
                     (Some count) (Some total) in
          let width := len (pretty total) in
          let padded_progress := rjust width (pretty count) in
          let final_msg :=
            final_msg +:+ "(" +:+ padded_progress +:+ "/" +:+ pretty total
            +:+ ") " in
          log lvl (final_msg +:+ message) (p, records)
      end
    else log lvl (final_msg +:+ message) (p, records).

(** [PrettyPrinter.timestamp]; [separator] is [None] or a line style. *)
Definition timestamp (msg : string) (sep : option string) : call unit :=
  let msg := msg +:+ " " +:+ strftime in
  match sep with
  | Some style =>
      if decide (style = "") then info msg else separator style msg
  | None => info msg
  end.

End logger.

End Printer.

(** * Properties *)

(** ** Dictionaries *)

Section dict_facts.
Context {V : Type}.
Implicit Types (d : dict V) (k : string) (v : V).

Lemma dict_contains_true d k : dict_contains d k = true ↔ k ∈ keys d.
Proof. unfold dict_contains. by rewrite bool_decide_eq_true. Qed.

Lemma dict_contains_false d k : dict_contains d k = false ↔ k ∉ keys d.
Proof. unfold dict_contains. by rewrite bool_decide_eq_false. Qed.

Lemma keys_app d1 d2 : keys (d1 ++ d2) = keys d1 ++ keys d2.
Proof. unfold keys. by rewrite fmap_app. Qed.

Lemma keys_cons k v d : keys ((k, v) :: d) = k :: keys d.
Proof. done. Qed.

Lemma dict_set_fresh d k v : k ∉ keys d → dict_set d k v = d ++ [(k, v)].
Proof.
  induction d as [|[k' w] d IH]; simpl; [done|].
  rewrite keys_cons, not_elem_of_cons. intros [Hne Hk].
  case_decide; [congruence|]. by rewrite IH.
Qed.

Lemma keys_dict_set d k v k' :
  k' ∈ keys (dict_set d k v) ↔ k' = k ∨ k' ∈ keys d.
Proof.
  induction d as [|[k0 w] d IH]; simpl.
  - unfold keys. simpl. rewrite list_elem_of_singleton, elem_of_nil. tauto.
  - case_decide; subst; rewrite !keys_cons, !elem_of_cons.
    + tauto.
    + rewrite IH. tauto.
Qed.

Lemma dict_get_is_Some d k : is_Some (dict_get d k) ↔ k ∈ keys d.
Proof.
  induction d as [|[k0 w] d IH]; simpl.
  - split; [by intros [? ?]|]. unfold keys. simpl. by intros ?%elem_of_nil.
  - rewrite keys_cons, elem_of_cons. case_decide; subst.
    + split; eauto.
    + rewrite IH. intuition congruence.
Qed.

Lemma dict_get_None d k : dict_get d k = None ↔ k ∉ keys d.
Proof. rewrite <-dict_get_is_Some, eq_None_not_Some. done. Qed.

Lemma dict_get_app d1 d2 k :
  dict_get (d1 ++ d2) k =
    match dict_get d1 k with
    | Some v => Some v
    | None => dict_get d2 k
    end.
Proof.
  induction d1 as [|[k0 w] d1 IH]; simpl; [done|]. by case_decide.
Qed.

Lemma dict_get_elem d k v : dict_wf d → (k, v) ∈ d → dict_get d k = Some v.
Proof.
  unfold dict_wf. induction d as [|[k0 w] d IH]; simpl.
  - intros _ H. by apply elem_of_nil in H.
  - rewrite keys_cons, NoDup_cons, elem_of_cons. intros [Hk0 Hnd] [Heq|Hin].
    + inversion Heq; subst. by rewrite decide_True.
    + case_decide; subst; [|by apply IH].
      exfalso. apply Hk0. unfold keys. apply list_elem_of_fmap.
      by exists (k, v).
Qed.

Lemma dict_get_Some_elem d k v : dict_get d k = Some v → (k, v) ∈ d.
Proof.
  induction d as [|[k0 w] d IH]; simpl; [done|].
  case_decide; subst.
  - intros [= ->]. left.
  - intros Hg. right. by apply IH.
Qed.

Lemma dict_get_set_eq d k v : dict_get (dict_set d k v) k = Some v.
Proof.
  induction d as [|[k0 w] d IH]; simpl.
  - by rewrite decide_True.
  - case_decide; subst; simpl.
    + by rewrite decide_True.
    + by rewrite decide_False.
Qed.

Lemma dict_get_set_ne d k k' v :
  k ≠ k' → dict_get (dict_set d k v) k' = dict_get d k'.
Proof.
  intros Hne. induction d as [|[k0 w] d IH]; simpl.
  - by rewrite decide_False.
  - case_decide; subst; simpl.
    + by rewrite !decide_False.
    + case_decide; [done|]. apply IH.
Qed.
End dict_facts.

(** ** Loops *)

Ltac munfold :=
  unfold mbind, M_bind, mret, M_ret, bind, ret, raise, get, modify in *.

Lemma for_each_cons {S A} (body : A → M S unit) x l s :
  for_each body (x :: l) s =
    match body x s with
    | (Returned _, s') => for_each body l s'
    | (Raised e, s') => (Raised e, s')
    end.
Proof. done. Qed.

Lemma for_each_app {S A} (body : A → M S unit) l1 l2 s :
  for_each body (l1 ++ l2) s =
    match for_each body l1 s with
    | (Returned _, s') => for_each body l2 s'
    | (Raised e, s') => (Raised e, s')
    end.
Proof.
  revert s. induction l1 as [|x l1 IH]; intros s; [done|].
  rewrite <-app_comm_cons, !for_each_cons.
  destruct (body x s) as [[[]|e] s']; [apply IH|done].
Qed.

Lemma seq_run {S A B} (m : M S A) (k : M S B) s :
  (m;; k) s =
    match m s with
    | (Returned _, s') => k s'
    | (Raised e, s') => (Raised e, s')
    end.
Proof. done. Qed.

(** ** [join] *)

Section join_facts.
Implicit Types (self other : VarSpace) (cls : PyClass).

Lemma join_item_fresh cls key var self :
  key ∉ keys (vars self) →
  join_item cls (key, var) self =
    (Returned (), mkVarSpace (vars self ++ [(key, var)]) (_injected_vars self)).
Proof.
  intros Hk. unfold join_item. munfold.
  apply dict_contains_false in Hk as Hc. rewrite Hc.
  unfold vars_setitem. by rewrite dict_set_fresh.
Qed.

Lemma join_item_clash cls key var self :
  key ∈ keys (vars self) →
  join_item cls (key, var) self =
    (Raised (DuplicateDeclarationError key (__qualname__ cls)), self).
Proof.
  intros Hk. unfold join_item. munfold.
  apply dict_contains_true in Hk as Hc. by rewrite Hc.
Qed.

Lemma join_loop_returns cls items self :
  NoDup (keys items) →
  (∀ k, k ∈ keys items → k ∉ keys (vars self)) →
  for_each (join_item cls) items self =
    (Returned (), mkVarSpace (vars self ++ items) (_injected_vars self)).
Proof.
  revert self. induction items as [|[key var] items IH]; intros self Hnd Hfresh.
  - simpl. unfold ret. rewrite app_nil_r. by destruct self.
  - rewrite keys_cons, NoDup_cons in Hnd. destruct Hnd as [Hkey Hnd].
    rewrite for_each_cons, join_item_fresh
      by (apply Hfresh; rewrite keys_cons; left).
    rewrite IH; simpl.
    + by rewrite <-app_assoc.
    + done.
    + intros k Hk. rewrite keys_app, elem_of_app, keys_cons.
      intros [Hin|Hin].
      * apply (Hfresh k); [rewrite keys_cons; by right|done].
      * apply list_elem_of_singleton in Hin. by subst.
Qed.

Lemma join_loop_raises cls items self e self' :
  for_each (join_item cls) items self = (Raised e, self') →
  ∃ done key var rest,
    items = done ++ (key, var) :: rest
    ∧ e = DuplicateDeclarationError key (__qualname__ cls)
    ∧ key ∈ keys (vars self ++ done)
    ∧ self' = mkVarSpace (vars self ++ done) (_injected_vars self).
Proof.
  revert self. induction items as [|[key var] items IH]; intros self.
  - simpl. by unfold ret.
  - rewrite for_each_cons.
    destruct (decide (key ∈ keys (vars self))) as [Hin|Hout].
    + rewrite join_item_clash by done. intros [= <- <-].
      exists [], key, var, items. rewrite app_nil_r. by destruct self.
    + rewrite join_item_fresh by done. intros Hrun.
      apply IH in Hrun as (done & k & v & rest & -> & -> & Hk & ->).
      simpl in *. exists ((key, var) :: done), k, v, rest.
      rewrite <-app_assoc in Hk. rewrite <-app_assoc. done.
Qed.

Lemma join_loop_clash cls items self k :
  k ∈ keys (vars self) → k ∈ keys items →
  ∃ k' self',
    for_each (join_item cls) items self =
      (Raised (DuplicateDeclarationError k' (__qualname__ cls)), self').
Proof.
  revert self. induction items as [|[key var] items IH]; intros self Hself Hitems.
  - by apply elem_of_nil in Hitems.
  - rewrite for_each_cons.
    destruct (decide (key ∈ keys (vars self))) as [Hin|Hout].
    + rewrite join_item_clash by done. eauto.
    + rewrite join_item_fresh by done.
      rewrite keys_cons, elem_of_cons in Hitems.
      destruct Hitems as [->|Hitems]; [done|].
      apply IH; [|done]. simpl. rewrite keys_app, elem_of_app. by left.
Qed.

Lemma join_returns other cls self :
  dict_wf (vars other) →
  (∀ k, k ∈ keys (vars other) → k ∉ keys (vars self)) →
  join other cls self =
    (Returned (), mkVarSpace (vars self ++ vars other)
                    (_injected_vars self ∪ _injected_vars other)).
Proof.
  intros Hwf Hfresh. unfold join. rewrite seq_run.
  rewrite join_loop_returns by done. done.
Qed.

Lemma join_raises other cls self e self' :
  join other cls self = (Raised e, self') →
  for_each (join_item cls) (vars other) self = (Raised e, self').
Proof.
  unfold join. rewrite seq_run.
  destruct (for_each _ _ _) as [[[]|e'] s']; [|done].
  by unfold modify.
Qed.
End join_facts.

(** ** [extend] *)

Section extend_facts.
Implicit Types (w : World) (cls : PyClass) (key : string).

Lemma grows_refl s : grows s s.
Proof. by split. Qed.

Lemma grows_trans s1 s2 s3 : grows s1 s2 → grows s2 s3 → grows s1 s3.
Proof.
  intros [Hp1 Hi1] [Hp2 Hi2]. split; [by etrans|congruence].
Qed.

Lemma grows_keys s s' k :
  grows s s' → k ∈ keys (vars s) → k ∈ keys (vars s').
Proof.
  intros [[ext ->] _]. rewrite keys_app, elem_of_app. by left.
Qed.

Lemma extend_local_declare_present key l w :
  key ∈ keys (vars (space w)) →
  extend_local (key, TestVarRef l) w = (Raised (RedeclarationError key), w).
Proof.
  intros Hk. unfold extend_local. munfold.
  apply dict_contains_true in Hk as Hc. by rewrite Hc.
Qed.

Lemma extend_local_declare_fresh key l w :
  key ∉ keys (vars (space w)) →
  extend_local (key, TestVarRef l) w =
    (Returned (),
     mkWorld (heap w)
       (mkVarSpace (vars (space w) ++ [(key, l)])
          (_injected_vars (space w)))).
Proof.
  intros Hk. unfold extend_local. munfold.
  apply dict_contains_false in Hk as Hc. rewrite Hc.
  unfold on_space, vars_setitem. simpl. by rewrite dict_set_fresh.
Qed.

Lemma check_then_define_undeclared key value w :
  key ∉ keys (vars (space w)) →
  (on_space (_check_var_is_declared key);; vars_define key value) w =
    (Raised (UndeclaredVariableError key), w).
Proof.
  intros Hk. unfold on_space, _check_var_is_declared, vars_define. munfold.
  apply dict_contains_false in Hk as Hc. rewrite Hc. by destruct w.
Qed.

Lemma check_then_define_declared key value l w :
  dict_get (vars (space w)) key = Some l →
  (on_space (_check_var_is_declared key);; vars_define key value) w =
    (Returned (),
     mkWorld (alter (λ var, define var value) l (heap w)) (space w)).
Proof.
  intros Hg. unfold on_space, _check_var_is_declared, vars_define. munfold.
  assert (key ∈ keys (vars (space w))) as Hk
    by (apply dict_get_is_Some; eauto).
  apply dict_contains_true in Hk as Hc. rewrite Hc. simpl. by rewrite Hg.
Qed.

Lemma extend_local_modify_undeclared key var w :
  (∀ l, var ≠ TestVarRef l) →
  key ∉ keys (vars (space w)) →
  extend_local (key, var) w = (Raised (UndeclaredVariableError key), w).
Proof.
  intros Hvar Hk. unfold extend_local.
  destruct var; [by destruct (Hvar var)| |];
    by apply check_then_define_undeclared.
Qed.

Lemma extend_local_modify_declared key var l w :
  (∀ l, var ≠ TestVarRef l) →
  dict_get (vars (space w)) key = Some l →
  extend_local (key, var) w =
    (Returned (),
     mkWorld (alter (λ tv, define tv (directive_default_value var)) l
                (heap w))
       (space w)).
Proof.
  intros Hvar Hg. unfold extend_local.
  destruct var; [by destruct (Hvar var)| |];
    by apply check_then_define_declared.
Qed.

Lemma extend_body_clash local key value w :
  key ∈ keys local →
  extend_body local (key, value) w = (Raised (MultipleActionsError key), w).
Proof.
  intros Hk. unfold extend_body. munfold.
  apply dict_contains_true in Hk as Hc. by rewrite Hc.
Qed.

Lemma extend_body_declared local key value l w :
  key ∉ keys local →
  dict_get (vars (space w)) key = Some l →
  extend_body local (key, value) w =
    (Returned (),
     mkWorld (alter (λ var, define var value) l (heap w)) (space w)).
Proof.
  intros Hk Hg. unfold extend_body.
  assert (key ∈ keys (vars (space w))) as Hv
    by (apply dict_get_is_Some; eauto).
  apply dict_contains_false in Hk as Hc.
  apply dict_contains_true in Hv as Hd.
  change ((if dict_contains local key
           then raise (MultipleActionsError key)
           else if dict_contains (vars (space w)) key
                then on_space (_check_var_is_declared key);;
                     vars_define key value
                else ret ()) w = (Returned (),
     mkWorld (alter (λ var, define var value) l (heap w)) (space w))).
  rewrite Hc, Hd. by apply check_then_define_declared.
Qed.

Lemma extend_body_skipped local key value w :
  key ∉ keys local →
  key ∉ keys (vars (space w)) →
  extend_body local (key, value) w = (Returned (), w).
Proof.
  intros Hk Hv. unfold extend_body. munfold.
  apply dict_contains_false in Hk as Hc.
  apply dict_contains_false in Hv as Hd. by rewrite Hc, Hd.
Qed.

(** What one step of either loop can do. *)
Lemma extend_local_cases key var w :
  match var with
  | TestVarRef l =>
      if decide (key ∈ keys (vars (space w)))
      then extend_local (key, var) w = (Raised (RedeclarationError key), w)
      else extend_local (key, var) w =
             (Returned (),
              mkWorld (heap w)
                (mkVarSpace (vars (space w) ++ [(key, l)])
                   (_injected_vars (space w))))
  | _ =>
      match dict_get (vars (space w)) key with
      | Some l =>
          extend_local (key, var) w =
            (Returned (),
             mkWorld (alter (λ tv, define tv (directive_default_value var))
                        l (heap w))
               (space w))
      | None =>
          extend_local (key, var) w =
            (Raised (UndeclaredVariableError key), w)
      end
  end.
Proof.
  destruct var as [l|v|].
  - case_decide.
    + by apply extend_local_declare_present.
    + by apply extend_local_declare_fresh.
  - destruct (dict_get _ _) eqn:Hg.
    + by apply extend_local_modify_declared.
    + apply extend_local_modify_undeclared; [done|].
      by apply dict_get_None.
  - destruct (dict_get _ _) eqn:Hg.
    + by apply extend_local_modify_declared.
    + apply extend_local_modify_undeclared; [done|].
      by apply dict_get_None.
Qed.

Lemma extend_local_grows item w r w' :
  extend_local item w = (r, w') → grows (space w) (space w').
Proof.
  destruct item as [key var]. pose proof (extend_local_cases key var w) as H.
  destruct var; [case_decide|destruct (dict_get _ _)..];
    rewrite H; intros [= <- <-]; simpl;
    try apply grows_refl.
  split; [by apply prefix_app_r|done].
Qed.

Lemma extend_body_cases local key value w :
  if decide (key ∈ keys local)
  then extend_body local (key, value) w =
         (Raised (MultipleActionsError key), w)
  else match dict_get (vars (space w)) key with
       | Some l =>
           extend_body local (key, value) w =
             (Returned (),
              mkWorld (alter (λ var, define var value) l (heap w)) (space w))
       | None => extend_body local (key, value) w = (Returned (), w)
       end.
Proof.
  case_decide; [by apply extend_body_clash|].
  destruct (dict_get _ _) eqn:Hg.
  - by apply extend_body_declared.
  - apply extend_body_skipped; [done|]. by apply dict_get_None.
Qed.

Lemma extend_body_grows local item w r w' :
  extend_body local item w = (r, w') → space w' = space w.
Proof.
  destruct item as [key value].
  pose proof (extend_body_cases local key value w) as H.
  case_decide; [|destruct (dict_get _ _)];
    rewrite H; by intros [= <- <-].
Qed.

Lemma for_each_grows {A} (body : A → M World unit) items :
  (∀ x w r w', body x w = (r, w') → grows (space w) (space w')) →
  ∀ w r w', for_each body items w = (r, w') → grows (space w) (space w').
Proof.
  intros Hbody. induction items as [|x items IH]; intros w r w'.
  - intros [= <- <-]. apply grows_refl.
  - rewrite for_each_cons. destruct (body x w) as [[[]|e] w1] eqn:Hx.
    + intros Hrest. eapply grows_trans; [by eapply Hbody|by eapply IH].
    + intros [= <- <-]. by eapply Hbody.
Qed.

Lemma extend_grows cls w r w' :
  extend cls w = (r, w') → grows (space w) (space w').
Proof.
  unfold extend. rewrite seq_run.
  destruct (for_each extend_local _ w) as [[[]|e] w1] eqn:H1.
  - intros H2. eapply grows_trans.
    + eapply for_each_grows; [|exact H1]. apply extend_local_grows.
    + eapply for_each_grows; [|exact H2].
      intros x w0 r0 w0' Hx. apply extend_body_grows in Hx.
      rewrite Hx. apply grows_refl.
  - intros [= <- <-]. eapply for_each_grows; [|exact H1].
    apply extend_local_grows.
Qed.

(** The call reaches an entry of the local namespace after the entries
    before it have been applied. *)
Lemma extend_at_local cls pre item post w w1 :
  _rfm_local_var_space cls = pre ++ item :: post →
  for_each extend_local pre w = (Returned (), w1) →
  extend cls w =
    (extend_local item;;
     for_each extend_local post;;
     for_each (extend_body (_rfm_local_var_space cls)) (__dict__ cls)) w1.
Proof.
  intros Hlocal Hpre. unfold extend.
  rewrite Hlocal at 1. rewrite seq_run, for_each_app, Hpre, for_each_cons.
  rewrite !seq_run. by destruct (extend_local item w1) as [[[]|e] w2].
Qed.

(** The call reaches an entry of the class dictionary after the local
    namespace and the entries before it have been applied. *)
Lemma extend_at_body cls pre item post w w1 :
  __dict__ cls = pre ++ item :: post →
  (for_each extend_local (_rfm_local_var_space cls);;
   for_each (extend_body (_rfm_local_var_space cls)) pre) w
    = (Returned (), w1) →
  extend cls w =
    (extend_body (_rfm_local_var_space cls) item;;
     for_each (extend_body (_rfm_local_var_space cls)) post) w1.
Proof.
  intros Hdict. unfold extend. rewrite Hdict, !seq_run.
  destruct (for_each extend_local _ w) as [[[]|e] w0]; [|done].
  rewrite for_each_app. intros ->. by rewrite for_each_cons.
Qed.
End extend_facts.

(** ** Joining the namespaces of the ancestors *)

Section inherit_facts.
Implicit Types (self other : VarSpace) (cls : PyClass).

Lemma join_loop_returns_inv cls items self self' :
  for_each (join_item cls) items self = (Returned (), self') →
  self' = mkVarSpace (vars self ++ items) (_injected_vars self).
Proof.
  revert self. induction items as [|[key var] items IH]; intros self.
  - intros [= <-]. rewrite app_nil_r. by destruct self.
  - rewrite for_each_cons.
    destruct (decide (key ∈ keys (vars self))) as [Hin|Hout].
    + by rewrite join_item_clash.
    + rewrite join_item_fresh by done. intros Hrun.
      apply IH in Hrun as ->. simpl. by rewrite <-app_assoc.
Qed.

Lemma join_returns_inv other cls self self' :
  join other cls self = (Returned (), self') →
  self' = mkVarSpace (vars self ++ vars other)
            (_injected_vars self ∪ _injected_vars other).
Proof.
  unfold join. rewrite seq_run.
  destruct (for_each _ _ _) as [[[]|e] s'] eqn:Hloop; [|done].
  apply join_loop_returns_inv in Hloop as ->. by intros [= <-].
Qed.

Lemma join_outcome other cls self :
  (∃ self', join other cls self = (Returned (), self'))
  ∨ (∃ k self',
       join other cls self =
         (Raised (DuplicateDeclarationError k (__qualname__ cls)), self')).
Proof.
  destruct (join other cls self) as [[[]|e] self'] eqn:Hj; [by eauto|].
  right. apply join_raises, join_loop_raises in Hj
    as (done & k & v & rest & _ & -> & _ & _). eauto.
Qed.

Lemma join_clash other cls self k :
  k ∈ keys (vars self) → k ∈ keys (vars other) →
  ∃ k' self',
    join other cls self =
      (Raised (DuplicateDeclarationError k' (__qualname__ cls)), self').
Proof.
  intros Hself Hother.
  destruct (join_loop_clash cls (vars other) self k Hself Hother)
    as (k' & self' & Hloop).
  exists k', self'. unfold join. by rewrite seq_run, Hloop.
Qed.

Lemma inherit_clash cls bases self base k :
  k ∈ keys (vars self) → base ∈ bases → k ∈ keys (vars base) →
  ∃ k' self',
    inherit bases cls self =
      (Raised (DuplicateDeclarationError k' (__qualname__ cls)), self').
Proof.
  unfold inherit. revert self.
  induction bases as [|b bases IH]; intros self Hself Hbase Hk.
  - by apply elem_of_nil in Hbase.
  - rewrite for_each_cons.
    destruct (join_outcome b cls self) as [[s1 Hj]|(k' & s1 & Hj)];
      rewrite Hj; [|by eauto].
    apply elem_of_cons in Hbase as [->|Hbase].
    + destruct (join_clash b cls self k Hself Hk) as (? & ? & Hc).
      congruence.
    + apply IH; [|done..].
      apply join_returns_inv in Hj as ->. simpl.
      rewrite keys_app, elem_of_app. by left.
Qed.

Lemma inherit_two cls l1 P l2 Q l3 self k :
  k ∈ keys (vars P) → k ∈ keys (vars Q) →
  ∃ k' self',
    inherit (l1 ++ P :: l2 ++ Q :: l3) cls self =
      (Raised (DuplicateDeclarationError k' (__qualname__ cls)), self').
Proof.
  intros HP HQ. revert self. induction l1 as [|b l1 IH]; intros self.
  - simpl. unfold inherit. rewrite for_each_cons.
    destruct (join_outcome P cls self) as [[s1 Hj]|(k' & s1 & Hj)];
      rewrite Hj; [|by eauto].
    apply (inherit_clash cls _ s1 Q k);
      [|apply elem_of_app; right; left|done].
    apply join_returns_inv in Hj as ->. simpl.
    rewrite keys_app, elem_of_app. by right.
  - rewrite <-app_comm_cons. unfold inherit. rewrite for_each_cons.
    destruct (join_outcome b cls self) as [[s1 Hj]|(k' & s1 & Hj)];
      rewrite Hj; [|by eauto].
    apply IH.
Qed.
End inherit_facts.

(** ** The claims about [join] *)

(** C5: when the variable names of two composed namespaces overlap, joining
    either one into the other raises the duplicate-declaration error, which
    names the class of the call; hence a definition with two distinct
    ancestors that declare the same name is rejected when the ancestors are
    joined into its new namespace, wherever the two stand among the
    ancestors. *)
Theorem join_overlap_raises_duplicate (A B : VarSpace) (cls : PyClass)
    (x : string) :
  x ∈ keys (vars A) → x ∈ keys (vars B) →
  (∃ k self',
      join B cls A =
        (Raised (DuplicateDeclarationError k (__qualname__ cls)), self'))
  ∧ (∃ k self',
      join A cls B =
        (Raised (DuplicateDeclarationError k (__qualname__ cls)), self'))
  ∧ (∀ l1 l2 l3 bases,
      bases = l1 ++ A :: l2 ++ B :: l3 ∨ bases = l1 ++ B :: l2 ++ A :: l3 →
      ∃ k self',
        inherit bases cls VarSpace_empty =
          (Raised (DuplicateDeclarationError k (__qualname__ cls)), self')).
Proof.
  intros HA HB. split_and!.
  - by apply (join_clash B cls A x).
  - by apply (join_clash A cls B x).
  - intros l1 l2 l3 bases [-> | ->]; by apply (inherit_two cls _ _ _ _ _ _ x).
Qed.

(** C10: for composed namespaces with disjoint variable names, joining in
    either direction returns without error, and the two results bind the
    same names to the same variables (one list of bindings is a permutation
    of the other) and have the same injected names, the union of the two
    sets. *)
Theorem join_disjoint_commutes (A B : VarSpace) (cls : PyClass) :
  dict_wf (vars A) → dict_wf (vars B) →
  (∀ k, k ∈ keys (vars A) → k ∉ keys (vars B)) →
  ∃ AB BA,
    join B cls A = (Returned (), AB)
    ∧ join A cls B = (Returned (), BA)
    ∧ vars AB = vars A ++ vars B
    ∧ vars BA = vars B ++ vars A
    ∧ vars AB ≡ₚ vars BA
    ∧ (∀ k, dict_get (vars AB) k = dict_get (vars BA) k)
    ∧ _injected_vars AB = _injected_vars A ∪ _injected_vars B
    ∧ _injected_vars AB = _injected_vars BA.
Proof.
  intros HA HB Hdisj.
  eexists _, _. split_and!.
  - apply join_returns; [done|]. intros k Hk Hk'. by apply (Hdisj k).
  - by apply join_returns.
  - done.
  - done.
  - simpl. apply Permutation_app_comm.
  - intros k. simpl. rewrite !dict_get_app.
    destruct (dict_get (vars A) k) eqn:Ha, (dict_get (vars B) k) eqn:Hb;
      try done.
    exfalso. apply (Hdisj k); apply dict_get_is_Some; eauto.
  - done.
  - simpl. apply (comm_L (∪)).
Qed.

Lemma join_overlap_raises_duplicate_witness :
  (∃ k self',
      join Hierarchy.Both_space Hierarchy.Leaf Hierarchy.Base_space =
        (Raised (DuplicateDeclarationError k "Leaf"), self'))
  ∧ (∃ k self',
      join Hierarchy.Base_space Hierarchy.Leaf Hierarchy.Both_space =
        (Raised (DuplicateDeclarationError k "Leaf"), self'))
  ∧ (∀ l1 l2 l3 bases,
      bases = l1 ++ Hierarchy.Base_space :: l2 ++ Hierarchy.Both_space :: l3
      ∨ bases = l1 ++ Hierarchy.Both_space :: l2 ++ Hierarchy.Base_space :: l3 →
      ∃ k self',
        inherit bases Hierarchy.Leaf VarSpace_empty =
          (Raised (DuplicateDeclarationError k "Leaf"), self')).
Proof.
  apply (join_overlap_raises_duplicate Hierarchy.Base_space
           Hierarchy.Both_space Hierarchy.Leaf "timeout").
  - vm_compute. left.
  - vm_compute. right. left.
Defined.

Lemma join_disjoint_commutes_witness :
  ∃ AB BA,
    join Hierarchy.Other_space Hierarchy.Leaf Hierarchy.Base_space
      = (Returned (), AB)
    ∧ join Hierarchy.Base_space Hierarchy.Leaf Hierarchy.Other_space
      = (Returned (), BA)
    ∧ vars AB = vars Hierarchy.Base_space ++ vars Hierarchy.Other_space
    ∧ vars BA = vars Hierarchy.Other_space ++ vars Hierarchy.Base_space
    ∧ vars AB ≡ₚ vars BA
    ∧ (∀ k, dict_get (vars AB) k = dict_get (vars BA) k)
    ∧ _injected_vars AB
      = _injected_vars Hierarchy.Base_space ∪ _injected_vars Hierarchy.Other_space
    ∧ _injected_vars AB = _injected_vars BA.
Proof.
  apply (join_disjoint_commutes Hierarchy.Base_space Hierarchy.Other_space
           Hierarchy.Leaf).
  - vm_compute. apply NoDup_singleton.
  - vm_compute. apply NoDup_singleton.
  - intros k Hk Hk'. vm_compute in Hk, Hk'.
    apply list_elem_of_singleton in Hk, Hk'. congruence.
Defined.

(** ** The errors and the partial updates of [extend] *)

Section extend_errors.
Implicit Types (w : World) (cls : PyClass) (key : string).

Lemma extend_local_error item w e w' :
  extend_local item w = (Raised e, w') → extend_error e.
Proof.
  destruct item as [key var]. pose proof (extend_local_cases key var w) as H.
  destruct var; [case_decide|destruct (dict_get _ _)..];
    rewrite H; by intros [= <- <-].
Qed.

Lemma extend_body_error local item w e w' :
  extend_body local item w = (Raised e, w') → extend_error e.
Proof.
  destruct item as [key value].
  pose proof (extend_body_cases local key value w) as H.
  case_decide; [|destruct (dict_get _ _)];
    rewrite H; by intros [= <- <-].
Qed.

Lemma for_each_error {S A} (P : Error → Prop) (body : A → M S unit) items :
  (∀ x s e s', body x s = (Raised e, s') → P e) →
  ∀ s e s', for_each body items s = (Raised e, s') → P e.
Proof.
  intros Hbody. induction items as [|x items IH]; intros s e s'; [done|].
  rewrite for_each_cons. destruct (body x s) as [[[]|e0] s1] eqn:Hx.
  - apply IH.
  - intros [= <- <-]. by eapply Hbody.
Qed.

Lemma extend_raises_extend_error cls w e w' :
  extend cls w = (Raised e, w') → extend_error e.
Proof.
  unfold extend. rewrite seq_run.
  destruct (for_each extend_local _ w) as [[[]|e0] w1] eqn:H1.
  - apply for_each_error. apply extend_body_error.
  - intros [= <- <-]. revert H1. apply for_each_error.
    apply extend_local_error.
Qed.

Lemma extend_loops_grow local items1 items2 w r w' :
  (for_each extend_local items1;;
   for_each (extend_body local) items2) w = (r, w') →
  grows (space w) (space w').
Proof.
  rewrite seq_run.
  destruct (for_each extend_local _ w) as [[[]|e] w1] eqn:H1.
  - intros H2. eapply grows_trans.
    + eapply for_each_grows; [|exact H1]. apply extend_local_grows.
    + eapply for_each_grows; [|exact H2].
      intros x w0 r0 w0' Hx. apply extend_body_grows in Hx.
      rewrite Hx. apply grows_refl.
  - intros [= <- <-]. eapply for_each_grows; [|exact H1].
    apply extend_local_grows.
Qed.

Lemma grows_dict_get s s' k l :
  grows s s' → dict_get (vars s) k = Some l → dict_get (vars s') k = Some l.
Proof.
  intros [[ext ->] _] Hg. by rewrite dict_get_app, Hg.
Qed.

Lemma body_loop_clash local items w key :
  key ∈ keys items → key ∈ keys local →
  ∃ pre k v post w',
    items = pre ++ (k, v) :: post
    ∧ (∀ k', k' ∈ keys pre → k' ∉ keys local)
    ∧ k ∈ keys local
    ∧ for_each (extend_body local) items w
      = (Raised (MultipleActionsError k), w').
Proof.
  intros Hitems Hlocal. revert w Hitems.
  induction items as [|[k0 v0] items IH]; intros w Hitems.
  - by apply elem_of_nil in Hitems.
  - rewrite for_each_cons.
    pose proof (extend_body_cases local k0 v0 w) as Hc.
    destruct (decide (k0 ∈ keys local)) as [Hin|Hout].
    + rewrite Hc. exists [], k0, v0, items, w. split_and!; try done.
      intros k' Hk'. by apply elem_of_nil in Hk'.
    + rewrite keys_cons, elem_of_cons in Hitems.
      destruct Hitems as [->|Hitems]; [done|].
      assert (∃ w1, extend_body local (k0, v0) w = (Returned (), w1))
        as [w1 ->] by (destruct (dict_get _ _); eauto).
      destruct (IH w1 Hitems) as (pre & k & v & post & w' & -> & Hpre & Hk & ->).
      exists ((k0, v0) :: pre), k, v, post, w'. split_and!; try done.
      intros k'. rewrite keys_cons, elem_of_cons. intros [->|Hk']; [done|].
      by apply Hpre.
Qed.
End extend_errors.

(** ** The claims about failures *)

Lemma for_each_raises_split {S A} (body : A → M S unit) items s e s' :
  for_each body items s = (Raised e, s') →
  ∃ pre x post s1,
    items = pre ++ x :: post
    ∧ for_each body pre s = (Returned (), s1)
    ∧ body x s1 = (Raised e, s').
Proof.
  revert s. induction items as [|x items IH]; intros s; [done|].
  rewrite for_each_cons. destruct (body x s) as [[[]|e0] s0] eqn:Hx.
  - intros Hrest.
    destruct (IH s0 Hrest) as (pre & y & post & s1 & -> & Hpre & Hy).
    exists (x :: pre), y, post, s1. split_and!; [done| |done].
    by rewrite for_each_cons, Hx.
  - intros [= <- <-]. by exists [], x, items, s.
Qed.

Lemma extend_local_raises_same item w e w' :
  extend_local item w = (Raised e, w') → w' = w.
Proof.
  destruct item as [key var]. pose proof (extend_local_cases key var w) as H.
  destruct var; [case_decide|destruct (dict_get _ _)..];
    rewrite H; by intros [= <- <-].
Qed.

Lemma extend_body_raises_same local item w e w' :
  extend_body local item w = (Raised e, w') → w' = w.
Proof.
  destruct item as [key value].
  pose proof (extend_body_cases local key value w) as H.
  case_decide; [|destruct (dict_get _ _)];
    rewrite H; by intros [= <- <-].
Qed.

(** C3, as the code has it: a failed [join] or [extend] stops at the first
    offending entry and nothing is undone: the namespace and the variable
    objects are left exactly as the entries before the offending one made
    them.  After a failed [join] the namespace is the one before the call
    followed by the entries of the other namespace that precede the
    clashing name, and its injected names are those before the call.  After
    a failed [extend] the error is one of the three errors of [extend], and
    the state left behind, namespace and variable objects, is the state in
    which the entries before the offending one, of the local namespace or,
    the local namespace once applied, of the class body, returned; the
    offending entry itself changes nothing.  In particular the bindings of
    before the call are still there, as a prefix, and the injected names
    are those before the call. *)
Theorem failed_call_keeps_earlier_updates :
  (∀ other cls self e self',
     join other cls self = (Raised e, self') →
     ∃ done key var rest,
       vars other = done ++ (key, var) :: rest
       ∧ e = DuplicateDeclarationError key (__qualname__ cls)
       ∧ key ∈ keys (vars self ++ done)
       ∧ self' = mkVarSpace (vars self ++ done) (_injected_vars self))
  ∧ (∀ cls w e w',
       extend cls w = (Raised e, w') →
       extend_error e
       ∧ grows (space w) (space w')
       ∧ ((∃ pre item post,
             _rfm_local_var_space cls = pre ++ item :: post
             ∧ for_each extend_local pre w = (Returned (), w')
             ∧ extend_local item w' = (Raised e, w'))
          ∨ (∃ w1 pre item post,
               for_each extend_local (_rfm_local_var_space cls) w
                 = (Returned (), w1)
               ∧ __dict__ cls = pre ++ item :: post
               ∧ for_each (extend_body (_rfm_local_var_space cls)) pre w1
                 = (Returned (), w')
               ∧ extend_body (_rfm_local_var_space cls) item w'
                 = (Raised e, w')))).
Proof.
  split.
  - intros other cls self e self' Hj.
    by apply join_raises, join_loop_raises in Hj.
  - intros cls w e w' He. split_and!.
    + by eapply extend_raises_extend_error.
    + by eapply extend_grows.
    + revert He. unfold extend. rewrite seq_run.
      destruct (for_each extend_local _ w) as [[[]|e0] w1] eqn:H1.
      * intros H2. right.
        apply for_each_raises_split in H2
          as (pre & item & post & w2 & Heq & Hpre & Hitem).
        pose proof (extend_body_raises_same _ _ _ _ _ Hitem) as ->.
        by exists w1, pre, item, post.
      * intros [= <- <-]. left.
        apply for_each_raises_split in H1
          as (pre & item & post & w2 & Heq & Hpre & Hitem).
        pose proof (extend_local_raises_same _ _ _ _ Hitem) as ->.
        by exists pre, item, post.
Qed.

(** C3 fails as stated: joining a parent that declares [retries] and
    [timeout] into a namespace that has [timeout] raises the
    duplicate-declaration error and leaves [retries] in the namespace; an
    [extend] that sets [timeout] and then meets an undeclared name raises
    and leaves the default of [timeout] changed. *)
Lemma failed_call_changes_namespace :
  join Hierarchy.Both_space Hierarchy.Leaf Hierarchy.Base_space
    = (Raised (DuplicateDeclarationError "timeout" "Leaf"),
       mkVarSpace [("timeout", 1%positive); ("retries", 2%positive)] ∅)
  ∧ mkVarSpace [("timeout", 1%positive); ("retries", 2%positive)] ∅
    ≠ Hierarchy.Base_space
  ∧ (extend Hierarchy.Half_applied
       (mkWorld Hierarchy.heap0 Hierarchy.Base_space)).1
    = Raised (UndeclaredVariableError "depth")
  ∧ view (heap (extend Hierarchy.Half_applied
                  (mkWorld Hierarchy.heap0 Hierarchy.Base_space)).2)
         Hierarchy.Base_space
    = [("timeout", Some (define Hierarchy.timeout_var (PyInt 20)))]
  ∧ view Hierarchy.heap0 Hierarchy.Base_space
    = [("timeout", Some Hierarchy.timeout_var)].
Proof.
  split_and!; [by vm_compute|discriminate|by vm_compute..].
Qed.

Lemma failed_call_keeps_earlier_updates_witness :
  let w0 := mkWorld Hierarchy.heap0 Hierarchy.Base_space in
  let w' := (extend Hierarchy.Half_applied w0).2 in
  (∃ done key var rest,
     vars Hierarchy.Both_space = done ++ (key, var) :: rest
     ∧ DuplicateDeclarationError "timeout" "Leaf"
       = DuplicateDeclarationError key (__qualname__ Hierarchy.Leaf)
     ∧ key ∈ keys (vars Hierarchy.Base_space ++ done)
     ∧ mkVarSpace [("timeout", 1%positive); ("retries", 2%positive)] ∅
       = mkVarSpace (vars Hierarchy.Base_space ++ done)
           (_injected_vars Hierarchy.Base_space))
  ∧ (extend_error (UndeclaredVariableError "depth")
     ∧ grows (space w0) (space w')
     ∧ ((∃ pre item post,
           _rfm_local_var_space Hierarchy.Half_applied = pre ++ item :: post
           ∧ for_each extend_local pre w0 = (Returned (), w')
           ∧ extend_local item w'
             = (Raised (UndeclaredVariableError "depth"), w'))
        ∨ (∃ w1 pre item post,
             for_each extend_local
               (_rfm_local_var_space Hierarchy.Half_applied) w0
               = (Returned (), w1)
             ∧ __dict__ Hierarchy.Half_applied = pre ++ item :: post
             ∧ for_each
                 (extend_body (_rfm_local_var_space Hierarchy.Half_applied))
                 pre w1 = (Returned (), w')
             ∧ extend_body (_rfm_local_var_space Hierarchy.Half_applied)
                 item w'
               = (Raised (UndeclaredVariableError "depth"), w')))).
Proof.
  intros w0 w'. split.
  - apply (proj1 failed_call_keeps_earlier_updates
             Hierarchy.Both_space Hierarchy.Leaf Hierarchy.Base_space).
    by vm_compute.
  - apply (proj2 failed_call_keeps_earlier_updates
             Hierarchy.Half_applied w0).
    by vm_compute.
Defined.

(** ** The claims about the actions of [extend] *)

(** C9: when [extend] comes to a declaration (the entries of the local
    namespace before it having been applied without error) and the name is
    already in the namespace, in particular when it was there before the
    call, it raises the redeclaration error at once; when the name is
    absent, the variable is inserted at the end of the namespace, where it
    stays until the call is over, and [extend] goes on with the next
    entry. *)
Theorem extend_declare (cls : PyClass) (w w1 : World)
    (pre post : dict VarDirective) (key : string) (l : loc) :
  _rfm_local_var_space cls = pre ++ (key, TestVarRef l) :: post →
  for_each extend_local pre w = (Returned (), w1) →
  (key ∈ keys (vars (space w)) →
   extend cls w = (Raised (RedeclarationError key), w1))
  ∧ (key ∈ keys (vars (space w1)) →
     extend cls w = (Raised (RedeclarationError key), w1))
  ∧ (key ∉ keys (vars (space w1)) →
     let w2 := mkWorld (heap w1)
                 (mkVarSpace (vars (space w1) ++ [(key, l)])
                    (_injected_vars (space w1))) in
     extend cls w =
       (for_each extend_local post;;
        for_each (extend_body (_rfm_local_var_space cls)) (__dict__ cls)) w2
     ∧ dict_get (vars (space w2)) key = Some l
     ∧ ∀ r w', extend cls w = (r, w') →
               dict_get (vars (space w')) key = Some l).
Proof.
  intros Hlocal Hpre.
  pose proof (extend_at_local cls pre _ post w w1 Hlocal Hpre) as Hat.
  assert (key ∈ keys (vars (space w1)) →
          extend cls w = (Raised (RedeclarationError key), w1)) as Hpresent.
  { intros Hk. rewrite Hat, seq_run.
    by rewrite extend_local_declare_present. }
  split_and!; [|done|].
  - intros Hk. apply Hpresent. eapply grows_keys; [|done].
    eapply for_each_grows; [|exact Hpre]. apply extend_local_grows.
  - intros Hk w2.
    assert (dict_get (vars (space w2)) key = Some l) as Hget.
    { subst w2. simpl. rewrite dict_get_app.
      apply dict_get_None in Hk. rewrite Hk. simpl. by rewrite decide_True. }
    assert (extend cls w =
       (for_each extend_local post;;
        for_each (extend_body (_rfm_local_var_space cls)) (__dict__ cls)) w2)
      as Hrest.
    { rewrite Hat, seq_run. by rewrite extend_local_declare_fresh. }
    split_and!; [done..|].
    intros r w' Hrun. rewrite Hrest in Hrun.
    apply extend_loops_grow in Hrun. by eapply grows_dict_get.
Qed.

Lemma extend_declare_witness :
  let w0 := mkWorld Hierarchy.heap0 Hierarchy.Base_space in
  ("retries" ∈ keys (vars (space w0)) →
   extend Hierarchy.Leaf w0 = (Raised (RedeclarationError "retries"), w0))
  ∧ ("retries" ∈ keys (vars (space w0)) →
     extend Hierarchy.Leaf w0 = (Raised (RedeclarationError "retries"), w0))
  ∧ ("retries" ∉ keys (vars (space w0)) →
     let w2 := mkWorld (heap w0)
                 (mkVarSpace (vars (space w0) ++ [("retries", 2%positive)])
                    (_injected_vars (space w0))) in
     extend Hierarchy.Leaf w0 =
       (for_each extend_local [("timeout", UndefineVar)];;
        for_each (extend_body (_rfm_local_var_space Hierarchy.Leaf))
          (__dict__ Hierarchy.Leaf)) w2
     ∧ dict_get (vars (space w2)) "retries" = Some 2%positive
     ∧ ∀ r w', extend Hierarchy.Leaf w0 = (r, w') →
               dict_get (vars (space w')) "retries" = Some 2%positive).
Proof.
  intros w0.
  apply (extend_declare Hierarchy.Leaf w0 w0 [] [("timeout", UndefineVar)]
           "retries" 2%positive); reflexivity.
Defined.

(** C4, as the code has it: an explicit define or undefine action whose
    name is not in the namespace makes [extend] raise the
    undeclared-variable error; an assignment in the class body whose name
    is not in the namespace is passed over without an error; when the name
    is in the namespace, either kind of action replaces the default value
    of the variable object the name refers to and nothing else: the
    namespace is as before, every other object of the heap is as before,
    and the object keeps its field type, its arguments and its name. *)
Theorem extend_modify (cls : PyClass) (w w1 : World) (key : string) :
  (∀ pre var post,
     _rfm_local_var_space cls = pre ++ (key, var) :: post →
     (∀ l, var ≠ TestVarRef l) →
     for_each extend_local pre w = (Returned (), w1) →
     (key ∉ keys (vars (space w1)) →
      extend cls w = (Raised (UndeclaredVariableError key), w1))
     ∧ (∀ l, dict_get (vars (space w1)) key = Some l →
        extend cls w =
          (for_each extend_local post;;
           for_each (extend_body (_rfm_local_var_space cls)) (__dict__ cls))
            (mkWorld
               (alter (λ tv, define tv (directive_default_value var)) l
                  (heap w1))
               (space w1))))
  ∧ (∀ pre value post,
       __dict__ cls = pre ++ (key, value) :: post →
       key ∉ keys (_rfm_local_var_space cls) →
       (for_each extend_local (_rfm_local_var_space cls);;
        for_each (extend_body (_rfm_local_var_space cls)) pre) w
         = (Returned (), w1) →
       (key ∉ keys (vars (space w1)) →
        extend cls w =
          for_each (extend_body (_rfm_local_var_space cls)) post w1)
       ∧ (∀ l, dict_get (vars (space w1)) key = Some l →
          extend cls w =
            for_each (extend_body (_rfm_local_var_space cls)) post
              (mkWorld (alter (λ tv, define tv value) l (heap w1))
                 (space w1))))
  ∧ (∀ (h : gmap loc TestVar) value l l',
       alter (λ tv, define tv value) l h !! l' =
         if decide (l = l') then (λ tv, define tv value) <$> h !! l
         else h !! l')
  ∧ (∀ tv value,
       default_value (define tv value) = value
       ∧ field_type (define tv value) = field_type tv
       ∧ args (define tv value) = args tv
       ∧ kwargs (define tv value) = kwargs tv
       ∧ name (define tv value) = name tv).
Proof.
  split_and!.
  - intros pre var post Hlocal Hvar Hpre.
    pose proof (extend_at_local cls pre _ post w w1 Hlocal Hpre) as Hat.
    split.
    + intros Hk. rewrite Hat, seq_run.
      by rewrite extend_local_modify_undeclared.
    + intros l Hg. rewrite Hat, seq_run.
      by rewrite (extend_local_modify_declared key var l).
  - intros pre value post Hdict Hlocal Hpre.
    pose proof (extend_at_body cls pre _ post w w1 Hdict Hpre) as Hat.
    split.
    + intros Hk. rewrite Hat, seq_run.
      by rewrite extend_body_skipped.
    + intros l Hg. rewrite Hat, seq_run.
      by rewrite (extend_body_declared _ key value l).
  - intros h value l l'. case_decide as Hl.
    + subst. by rewrite lookup_alter_eq.
    + by rewrite lookup_alter_ne.
  - by intros tv value.
Qed.

Lemma extend_modify_witness :
  extend Hierarchy.Mid (mkWorld Hierarchy.heap0 Hierarchy.Base_space) =
    (for_each extend_local [];;
     for_each (extend_body (_rfm_local_var_space Hierarchy.Mid))
       (__dict__ Hierarchy.Mid))
      (mkWorld
         (alter (λ tv, define tv (PyInt 20)) 1%positive Hierarchy.heap0)
         Hierarchy.Base_space).
Proof.
  destruct (extend_modify Hierarchy.Mid
              (mkWorld Hierarchy.heap0 Hierarchy.Base_space)
              (mkWorld Hierarchy.heap0 Hierarchy.Base_space) "timeout")
    as [Hexplicit _].
  destruct (Hexplicit [] (DefineVar (PyInt 20)) []) as [_ Hdeclared].
  - reflexivity.
  - intros l. discriminate.
  - reflexivity.
  - apply (Hdeclared 1%positive). reflexivity.
Defined.

(** C4 fails as stated for assignments in the class body: a class that
    assigns [depth], a name that is not in the namespace, is extended
    without any error and without any change. *)
Lemma assignment_to_undeclared_name_is_ignored :
  "depth" ∈ keys (__dict__ Hierarchy.Plain_attribute)
  ∧ ("depth" ∉ keys (vars VarSpace_empty))
  ∧ extend Hierarchy.Plain_attribute (mkWorld Hierarchy.heap0 VarSpace_empty)
    = (Returned (), mkWorld Hierarchy.heap0 VarSpace_empty).
Proof.
  split_and!.
  - vm_compute. right. left.
  - vm_compute. by intros ?%elem_of_nil.
  - by vm_compute.
Qed.

(** C2, as the code has it: when the entries of the local namespace have
    all been applied without error and some name has both an entry in the
    local namespace, of any kind, a declaration included, and an
    assignment in the class body, [extend] raises the multiple-actions
    error, for the first name of the class dictionary that the local
    namespace holds. *)
Theorem extend_two_actions (cls : PyClass) (w w1 : World) (key : string) :
  for_each extend_local (_rfm_local_var_space cls) w = (Returned (), w1) →
  key ∈ keys (_rfm_local_var_space cls) →
  key ∈ keys (__dict__ cls) →
  ∃ pre k v post w',
    __dict__ cls = pre ++ (k, v) :: post
    ∧ (∀ k', k' ∈ keys pre → k' ∉ keys (_rfm_local_var_space cls))
    ∧ k ∈ keys (_rfm_local_var_space cls)
    ∧ extend cls w = (Raised (MultipleActionsError k), w').
Proof.
  intros Hlocal Hk Hd.
  destruct (body_loop_clash (_rfm_local_var_space cls) (__dict__ cls) w1 key
              Hd Hk) as (pre & k & v & post & w' & Heq & Hpre & Hin & Hrun).
  exists pre, k, v, post, w'. split_and!; try done.
  unfold extend. by rewrite seq_run, Hlocal.
Qed.

Lemma extend_two_actions_witness :
  ∃ pre k v post w',
    __dict__ Hierarchy.Declare_and_assign = pre ++ (k, v) :: post
    ∧ (∀ k', k' ∈ keys pre →
             k' ∉ keys (_rfm_local_var_space Hierarchy.Declare_and_assign))
    ∧ k ∈ keys (_rfm_local_var_space Hierarchy.Declare_and_assign)
    ∧ extend Hierarchy.Declare_and_assign
        (mkWorld Hierarchy.heap0 VarSpace_empty)
      = (Raised (MultipleActionsError k), w').
Proof.
  apply (extend_two_actions Hierarchy.Declare_and_assign
           (mkWorld Hierarchy.heap0 VarSpace_empty)
           (mkWorld Hierarchy.heap0
              (mkVarSpace [("timeout", 1%positive)] ∅))
           "timeout").
  - by vm_compute.
  - vm_compute. left.
  - vm_compute. right. left.
Defined.

(** C2 fails as stated: a class body that declares [timeout] and assigns
    it as well is rejected with the multiple-actions error, so a freshly
    declared variable is no exception; and a class body that undefines and
    assigns a name that was never declared is rejected with the
    undeclared-variable error, not with the multiple-actions error. *)
Lemma declared_and_assigned_is_rejected :
  _rfm_local_var_space Hierarchy.Declare_and_assign
    = [("timeout", TestVarRef 1)]
  ∧ dict_get (__dict__ Hierarchy.Declare_and_assign) "timeout"
    = Some (PyInt 20)
  ∧ (extend Hierarchy.Declare_and_assign
       (mkWorld Hierarchy.heap0 VarSpace_empty)).1
    = Raised (MultipleActionsError "timeout")
  ∧ (extend Hierarchy.Undeclared_twice
       (mkWorld Hierarchy.heap0 VarSpace_empty)).1
    = Raised (UndeclaredVariableError "depth").
Proof. split_and!; by vm_compute. Qed.

(** C1, evaluated on the code: [join] stores in the descendant the very
    variable objects of the ancestor, so that, once [Mid] has joined the
    namespace of [Base], a define action, an assignment in the class body
    or an undefine action of [Mid] on [timeout] each return without error
    and change the default that the namespace of [Base] shows for
    [timeout], which was 10. *)
Theorem descendant_action_changes_ancestor :
  let run cls :=
    (on_space (join Hierarchy.Base_space cls);; extend cls)
      (mkWorld Hierarchy.heap0 VarSpace_empty) in
  view Hierarchy.heap0 Hierarchy.Base_space
    = [("timeout", Some Hierarchy.timeout_var)]
  ∧ default_value Hierarchy.timeout_var = PyInt 10
  ∧ (run Hierarchy.Mid).1 = Returned ()
  ∧ view (heap (run Hierarchy.Mid).2) Hierarchy.Base_space
    = [("timeout", Some (define Hierarchy.timeout_var (PyInt 20)))]
  ∧ (run Hierarchy.Mid_assign).1 = Returned ()
  ∧ view (heap (run Hierarchy.Mid_assign).2) Hierarchy.Base_space
    = [("timeout", Some (define Hierarchy.timeout_var (PyInt 20)))]
  ∧ (run Hierarchy.Mid_undefine).1 = Returned ()
  ∧ view (heap (run Hierarchy.Mid_undefine).2) Hierarchy.Base_space
    = [("timeout", Some (undefine Hierarchy.timeout_var))].
Proof. split_and!; by vm_compute. Qed.

(** ** The claims about the variable objects *)

Lemma dict_pop_absent {V} (d : dict V) (key key' : string) (dflt : V) :
  key' ∉ keys d → dict_get (dict_pop d key dflt).2 key' = None.
Proof.
  intros Hk. apply dict_get_None. intros Hin. apply Hk.
  unfold dict_pop, keys in *. simpl in Hin.
  apply list_elem_of_fmap in Hin as [[k v] [-> Hin]].
  apply list_elem_of_filter in Hin as [_ Hin].
  apply list_elem_of_fmap. by exists (k, v).
Qed.

Lemma body_loop_skipped local items w :
  (∀ k, k ∈ keys items → (k ∉ keys local) ∧ (k ∉ keys (vars (space w)))) →
  for_each (extend_body local) items w = (Returned (), w).
Proof.
  induction items as [|[k v] items IH]; intros Hskip; [done|].
  rewrite for_each_cons.
  destruct (Hskip k) as [Hl Hv]; [rewrite keys_cons; left|].
  rewrite extend_body_skipped by done. apply IH.
  intros k' Hk'. apply Hskip. rewrite keys_cons. by right.
Qed.

(** A class whose body holds one define or undefine action on a variable
    of its only parent. *)
Lemma join_then_modify h A cls x l var :
  dict_wf (vars A) →
  dict_get (vars A) x = Some l →
  _rfm_local_var_space cls = [(x, var)] →
  (∀ l, var ≠ TestVarRef l) →
  (∀ k, k ∈ keys (__dict__ cls) → k ∉ keys (vars A)) →
  (on_space (join A cls);; extend cls) (mkWorld h VarSpace_empty) =
    (Returned (),
     mkWorld (alter (λ tv, define tv (directive_default_value var)) l h)
       (mkVarSpace (vars A) (_injected_vars A))).
Proof.
  intros Hwf Hget Hlocal Hvar Hdict.
  rewrite seq_run. unfold on_space. simpl.
  rewrite join_returns; [|done|by intros k _ ?%elem_of_nil].
  simpl. rewrite (left_id_L _ (∪)).
  unfold extend. rewrite Hlocal, seq_run, for_each_cons.
  rewrite (extend_local_modify_declared x var l) by done.
  simpl. apply body_loop_skipped. simpl. intros k Hk.
  split; [|by apply Hdict].
  unfold keys. simpl. intros ->%list_elem_of_singleton.
  apply (Hdict x Hk). apply dict_get_is_Some. eauto.
Qed.

(** C8: a variable built without a [value] argument is not defined;
    defining it with a value other than the [_Undefined] marker makes it
    defined with that value as its default; undefining it makes it
    undefined again, and undefining twice is the same as undefining once.
    In a hierarchy: a define action of a descendant on a variable of its
    parent leaves the variable defined with the new default in the
    namespace of the descendant, and an undefine action leaves it
    undefined. *)
Theorem define_undefine_roundtrip (issubclass_Field : pyobj → bool) :
  (∀ args kwargs tv,
     TestVar___init__ issubclass_Field args kwargs = Returned tv →
     "value" ∉ keys kwargs →
     is_defined tv = false)
  ∧ (∀ tv v,
       v ≠ _Undefined →
       is_defined (define tv v) = true ∧ default_value (define tv v) = v)
  ∧ (∀ tv,
       is_defined (undefine tv) = false
       ∧ undefine (undefine tv) = undefine tv)
  ∧ (∀ h A cls x l tv var,
       dict_wf (vars A) →
       dict_get (vars A) x = Some l →
       h !! l = Some tv →
       _rfm_local_var_space cls = [(x, var)] →
       (∀ k, k ∈ keys (__dict__ cls) → k ∉ keys (vars A)) →
       (∀ v, var = DefineVar v → v ≠ _Undefined →
          ∃ w', (on_space (join A cls);; extend cls)
                  (mkWorld h VarSpace_empty) = (Returned (), w')
                ∧ dict_get (vars (space w')) x = Some l
                ∧ heap w' !! l = Some (define tv v)
                ∧ default_value (define tv v) = v
                ∧ is_defined (define tv v) = true)
       ∧ (var = UndefineVar →
          ∃ w', (on_space (join A cls);; extend cls)
                  (mkWorld h VarSpace_empty) = (Returned (), w')
                ∧ dict_get (vars (space w')) x = Some l
                ∧ heap w' !! l = Some (undefine tv)
                ∧ is_defined (undefine tv) = false)).
Proof.
  assert (∀ tv v, v ≠ _Undefined → is_defined (define tv v) = true) as Hdef.
  { intros tv v Hv. unfold is_defined. simpl. by destruct v. }
  split_and!.
  - intros args kwargs tv Hinit Hvalue. unfold TestVar___init__ in Hinit.
    destruct (dict_pop kwargs "field" TypedField) as [ft kw1] eqn:Hpop1.
    destruct (dict_pop kw1 "value" _Undefined) as [dv kw2] eqn:Hpop2.
    destruct (is_class ft); [|done].
    destruct (issubclass_Field ft); [|done].
    injection Hinit as <-. unfold is_defined. simpl.
    pose proof (dict_pop_absent kwargs "field" "value" TypedField Hvalue)
      as Hnone.
    rewrite Hpop1 in Hnone. simpl in Hnone.
    unfold dict_pop in Hpop2. rewrite Hnone in Hpop2.
    by injection Hpop2 as <- _.
  - intros tv v Hv. split; [by apply Hdef|done].
  - by intros tv.
  - intros h A cls x l tv var Hwf Hget Hh Hlocal Hdict. split.
    + intros v -> Hv. eexists. split_and!.
      * by apply (join_then_modify h A cls x l (DefineVar v)).
      * done.
      * simpl. by rewrite lookup_alter_eq, Hh.
      * done.
      * by apply Hdef.
    + intros ->. eexists. split_and!.
      * by apply (join_then_modify h A cls x l UndefineVar).
      * done.
      * simpl. by rewrite lookup_alter_eq, Hh.
      * done.
Qed.

Lemma define_undefine_roundtrip_witness :
  is_defined (mkTestVar TypedField _Undefined [PyType "int"] [] None) = false
  ∧ (is_defined (define Hierarchy.timeout_var (PyInt 2)) = true
     ∧ default_value (define Hierarchy.timeout_var (PyInt 2)) = PyInt 2)
  ∧ ∃ w', (on_space (join Hierarchy.Base_space Hierarchy.Mid);;
           extend Hierarchy.Mid)
            (mkWorld Hierarchy.heap0 VarSpace_empty) = (Returned (), w')
          ∧ dict_get (vars (space w')) "timeout" = Some 1%positive
          ∧ heap w' !! 1%positive
            = Some (define Hierarchy.timeout_var (PyInt 20))
          ∧ default_value (define Hierarchy.timeout_var (PyInt 20))
            = PyInt 20
          ∧ is_defined (define Hierarchy.timeout_var (PyInt 20)) = true.
Proof.
  destruct (define_undefine_roundtrip (λ _, true))
    as (Hinit & Hdefine & _ & Hchain).
  split; [|split].
  - apply (Hinit [PyType "int"] []); [reflexivity|].
    vm_compute. by intros ?%elem_of_nil.
  - apply Hdefine. discriminate.
  - destruct (Hchain Hierarchy.heap0 Hierarchy.Base_space Hierarchy.Mid
                "timeout" 1%positive Hierarchy.timeout_var
                (DefineVar (PyInt 20))) as [Hd _].
    + vm_compute. apply NoDup_singleton.
    + reflexivity.
    + reflexivity.
    + reflexivity.
    + intros k Hk Hk'. vm_compute in Hk, Hk'.
      apply list_elem_of_singleton in Hk, Hk'. congruence.
    + apply (Hd (PyInt 20)); [reflexivity|discriminate].
Defined.

(** ** The claim about [sanity] *)

Section sanity_facts.
Implicit Types (self : VarSpace) (cls : PyClass) (illegal : gset string).

Lemma sanity_key_clash cls illegal key self :
  key ∈ illegal → key ∉ _injected_vars self →
  sanity_key cls illegal key self =
    (Raised (NameClashError key (__qualname__ cls)), self).
Proof.
  intros Hi Hn. unfold sanity_key. munfold.
  by rewrite (bool_decide_eq_true_2 _ Hi), (bool_decide_eq_false_2 _ Hn).
Qed.

Lemma sanity_key_passes cls illegal key self :
  ¬ (key ∈ illegal ∧ key ∉ _injected_vars self) →
  sanity_key cls illegal key self = (Returned (), self).
Proof.
  intros Hno. unfold sanity_key. munfold.
  destruct (decide (key ∈ illegal)) as [Hi|Hi].
  - destruct (decide (key ∈ _injected_vars self)) as [Hn|Hn]; [|tauto].
    by rewrite (bool_decide_eq_true_2 _ Hi), (bool_decide_eq_true_2 _ Hn).
  - by rewrite (bool_decide_eq_false_2 _ Hi).
Qed.

Lemma sanity_loop cls illegal ks self :
  (∃ pre key post,
     ks = pre ++ key :: post
     ∧ (∀ k, k ∈ pre → ¬ (k ∈ illegal ∧ k ∉ _injected_vars self))
     ∧ key ∈ illegal ∧ (key ∉ _injected_vars self)
     ∧ for_each (sanity_key cls illegal) ks self =
         (Raised (NameClashError key (__qualname__ cls)), self))
  ∨ ((∀ k, k ∈ ks → ¬ (k ∈ illegal ∧ k ∉ _injected_vars self))
     ∧ for_each (sanity_key cls illegal) ks self = (Returned (), self)).
Proof.
  induction ks as [|k0 ks IH].
  - right. split; [by intros k ?%elem_of_nil|done].
  - rewrite for_each_cons.
    destruct (decide (k0 ∈ illegal ∧ k0 ∉ _injected_vars self))
      as [[Hi Hn]|Hno].
    + left. exists [], k0, ks. rewrite sanity_key_clash by done.
      split_and!; try done. by intros k ?%elem_of_nil.
    + rewrite sanity_key_passes by done.
      destruct IH as [(pre & key & post & -> & Hpre & Hi & Hn & ->)|[Hall ->]].
      * left. exists (k0 :: pre), key, post. split_and!; try done.
        intros k [->|Hk]%elem_of_cons; [done|by apply Hpre].
      * right. split; [|done].
        intros k [->|Hk]%elem_of_cons; [done|by apply Hall].
Qed.
End sanity_facts.

(** C6: [sanity] raises the name-clash error, naming the class, exactly
    when some name of the namespace is in the reserved names and not among
    the injected names; the reserved names are the set that is passed or,
    when none is passed, the member names of the class, its own and the
    inherited ones.  The name in the error is such a name, so a name that
    has been injected is never reported; in every case the namespace is
    left as it was. *)
Theorem sanity_raises_iff (cls : PyClass)
    (illegal_names : option (gset string)) (self : VarSpace) :
  let reserved :=
    match illegal_names with
    | None => dir cls
    | Some names => names
    end in
  let clash key :=
    key ∈ keys (vars self) ∧ key ∈ reserved ∧ key ∉ _injected_vars self in
  ((∃ key, clash key) ↔
   ∃ key, sanity cls illegal_names self =
            (Raised (NameClashError key (__qualname__ cls)), self))
  ∧ ((¬ ∃ key, clash key) ↔
     sanity cls illegal_names self = (Returned (), self))
  ∧ (∀ e self',
       sanity cls illegal_names self = (Raised e, self') →
       ∃ key, e = NameClashError key (__qualname__ cls) ∧ clash key
              ∧ self' = self)
  ∧ (∀ name,
       name ∈ dir cls ↔
       name ∈ keys (__dict__ cls) ∨ name ∈ inherited_names cls).
Proof.
  intros reserved clash.
  assert (sanity cls illegal_names self =
          for_each (sanity_key cls reserved) (keys (vars self)) self) as Hs
    by done.
  rewrite Hs.
  destruct (sanity_loop cls reserved (keys (vars self)) self)
    as [(pre & key & post & Hks & Hpre & Hi & Hn & Hrun)|[Hall Hrun]];
    rewrite Hrun.
  - assert (clash key) as Hclash.
    { split_and!; try done. rewrite Hks, elem_of_app, elem_of_cons. tauto. }
    split_and!.
    + split; eauto.
    + split; [|done]. intros Hno. destruct Hno. eauto.
    + intros e self' [= <- <-]. eauto.
    + intros name. unfold dir. rewrite elem_of_union, elem_of_list_to_set.
      done.
  - assert (¬ ∃ key, clash key) as Hnone.
    { intros (key & Hk & Hi & Hn). by apply (Hall key). }
    split_and!.
    + split; [done|]. by intros [key ?].
    + done.
    + by intros e self'.
    + intros name. unfold dir. rewrite elem_of_union, elem_of_list_to_set.
      done.
Qed.

Lemma sanity_raises_iff_witness :
  ∃ key, sanity Hierarchy.Unrelated_member None Hierarchy.Base_space =
           (Raised (NameClashError key "Leaf"), Hierarchy.Base_space).
Proof.
  apply (proj1 (proj1 (sanity_raises_iff Hierarchy.Unrelated_member None
                         Hierarchy.Base_space))).
  exists "timeout". split_and!.
  - vm_compute. left.
  - by vm_compute.
  - by vm_compute.
Defined.

(** ** The claim about [inject] *)

Section inject_facts.
Variable Field___set__ : pyobj → pyobj → option pyobj.
Implicit Types (t : Target) (h : gmap loc TestVar).

Lemma dict_set_set {V} (d : dict V) k v v' :
  dict_set (dict_set d k v) k v' = dict_set d k v'.
Proof.
  induction d as [|[k0 w] d IH]; simpl.
  - by rewrite decide_True.
  - case_decide; simpl.
    + by rewrite decide_True.
    + rewrite decide_False by done. by rewrite IH.
Qed.

Lemma inject_item_step h name l var t :
  h !! l = Some var →
  inject_item Field___set__ h (name, l) t =
    let c' := bind_slot name (slot_of name var) (t_cls t) in
    let self' := mkVarSpace (vars (t_self t))
                   ({[name]} ∪ _injected_vars (t_self t)) in
    if is_defined var then
      match Field___set__ (slot_of name var) (default_value var) with
      | Some stored =>
          (Returned (), mkTarget self' c' (<[name := stored]> (t_obj t)))
      | None =>
          (Raised (FieldSetError name (default_value var)),
           mkTarget (t_self t) c' (t_obj t))
      end
    else (Returned (), mkTarget self' c' (t_obj t)).
Proof.
  intros Hh. unfold inject_item. rewrite Hh.
  unfold setattr_cls, cls_set_name, setattr_obj, injected_add. munfold.
  simpl. rewrite dict_get_set_eq. simpl. rewrite dict_set_set.
  unfold bind_slot, slot_of.
  destruct (is_defined var); simpl; [|done].
  rewrite dict_get_set_eq.
  by destruct (Field___set__ _ _).
Qed.
End inject_facts.

Section inject_loop.
Variable Field___set__ : pyobj → pyobj → option pyobj.
Implicit Types (t : Target) (h : gmap loc TestVar).

Lemma inject_item_dangling h name l t :
  h !! l = None →
  inject_item Field___set__ h (name, l) t = (Raised (ReferenceError l), t).
Proof. intros Hh. unfold inject_item. by rewrite Hh. Qed.

Lemma inject_item_returns h name l t t1 :
  inject_item Field___set__ h (name, l) t = (Returned (), t1) →
  ∃ var,
    h !! l = Some var
    ∧ vars (t_self t1) = vars (t_self t)
    ∧ _injected_vars (t_self t1) = {[name]} ∪ _injected_vars (t_self t)
    ∧ dict_get (__dict__ (t_cls t1)) name = Some (slot_of name var)
    ∧ (∀ name', name' ≠ name →
         dict_get (__dict__ (t_cls t1)) name'
           = dict_get (__dict__ (t_cls t)) name'
         ∧ t_obj t1 !! name' = t_obj t !! name')
    ∧ (if is_defined var
       then ∃ stored,
              Field___set__ (slot_of name var) (default_value var)
                = Some stored
              ∧ t_obj t1 !! name = Some stored
       else t_obj t1 !! name = t_obj t !! name).
Proof.
  destruct (h !! l) as [var|] eqn:Hh;
    [|by rewrite inject_item_dangling].
  rewrite (inject_item_step _ h name l var) by done. simpl.
  destruct (is_defined var) eqn:Hd;
    [destruct (Field___set__ _ _) as [stored|] eqn:Hset; [|done]|];
    intros [= <-]; exists var; simpl; rewrite Hd.
  - split_and!; try done.
    + apply dict_get_set_eq.
    + intros name' Hne. split; [by apply dict_get_set_ne|].
      by rewrite lookup_insert_ne.
    + exists stored. split; [done|]. by rewrite lookup_insert_eq.
  - split_and!; try done.
    + apply dict_get_set_eq.
    + intros name' Hne. split; [by apply dict_get_set_ne|done].
Qed.

Lemma inject_item_raises h name l t e t1 :
  inject_item Field___set__ h (name, l) t = (Raised e, t1) →
  t_self t1 = t_self t
  ∧ ((h !! l = None ∧ e = ReferenceError l)
     ∨ (∃ var,
          h !! l = Some var
          ∧ is_defined var = true
          ∧ Field___set__ (slot_of name var) (default_value var) = None
          ∧ e = FieldSetError name (default_value var))).
Proof.
  destruct (h !! l) as [var|] eqn:Hh.
  - rewrite (inject_item_step _ h name l var) by done. simpl.
    destruct (is_defined var) eqn:Hd;
      [destruct (Field___set__ _ _) as [stored|] eqn:Hset|]; try done.
    intros [= <- <-]. split; [done|]. right. by exists var.
  - rewrite inject_item_dangling by done. intros [= <- <-]. by auto.
Qed.

Lemma inject_loop_returns h items t t' :
  for_each (inject_item Field___set__ h) items t = (Returned (), t') →
  vars (t_self t') = vars (t_self t)
  ∧ _injected_vars (t_self t')
    = list_to_set (keys items) ∪ _injected_vars (t_self t)
  ∧ (∀ name, name ∉ keys items →
       dict_get (__dict__ (t_cls t')) name
         = dict_get (__dict__ (t_cls t)) name
       ∧ t_obj t' !! name = t_obj t !! name)
  ∧ (NoDup (keys items) →
     ∀ name l, (name, l) ∈ items →
       ∃ var,
         h !! l = Some var
         ∧ dict_get (__dict__ (t_cls t')) name = Some (slot_of name var)
         ∧ (if is_defined var
            then ∃ stored,
                   Field___set__ (slot_of name var) (default_value var)
                     = Some stored
                   ∧ t_obj t' !! name = Some stored
            else t_obj t' !! name = t_obj t !! name)).
Proof.
  revert t. induction items as [|[n0 l0] items IH]; intros t.
  - intros [= <-]. split_and!; try done.
    + unfold keys. simpl. by rewrite (left_id_L _ (∪)).
    + intros _ name l Hin. by apply elem_of_nil in Hin.
  - rewrite for_each_cons.
    destruct (inject_item Field___set__ h (n0, l0) t) as [[[]|e] t1] eqn:Hstep;
      [|done].
    apply inject_item_returns in Hstep
      as (var0 & Hh0 & Hv0 & Hi0 & Hc0 & Ho0 & Hd0).
    intros Hrest. apply IH in Hrest as (Hv & Hi & Hother & Hin).
    split_and!.
    + congruence.
    + rewrite Hi, Hi0, keys_cons, list_to_set_cons.
      rewrite (assoc_L (∪)). f_equal. apply (comm_L (∪)).
    + intros name. rewrite keys_cons, not_elem_of_cons. intros [Hne Hk].
      destruct (Hother name Hk) as [-> ->]. by apply Ho0.
    + rewrite keys_cons, NoDup_cons. intros [Hn0 Hnd] name l.
      rewrite elem_of_cons. intros [[= -> ->]|Hmem].
      * exists var0. destruct (Hother n0 Hn0) as [-> ->].
        split_and!; done.
      * destruct (Hin Hnd name l Hmem) as (var & Hh & Hc & Hd).
        exists var. split_and!; try done.
        destruct (is_defined var); [done|].
        rewrite Hd. apply Ho0. intros ->. apply Hn0.
        unfold keys. apply list_elem_of_fmap. by exists (n0, l).
Qed.

Lemma inject_loop_raises h items t e t' :
  for_each (inject_item Field___set__ h) items t = (Raised e, t') →
  ∃ pre name l post,
    items = pre ++ (name, l) :: post
    ∧ vars (t_self t') = vars (t_self t)
    ∧ _injected_vars (t_self t')
      = list_to_set (keys pre) ∪ _injected_vars (t_self t)
    ∧ ((h !! l = None ∧ e = ReferenceError l)
       ∨ (∃ var,
            h !! l = Some var
            ∧ is_defined var = true
            ∧ Field___set__ (slot_of name var) (default_value var) = None
            ∧ e = FieldSetError name (default_value var))).
Proof.
  revert t. induction items as [|[n0 l0] items IH]; intros t; [done|].
  rewrite for_each_cons.
  destruct (inject_item Field___set__ h (n0, l0) t) as [[[]|e0] t1] eqn:Hstep.
  - apply inject_item_returns in Hstep
      as (var0 & Hh0 & Hv0 & Hi0 & Hc0 & Ho0 & Hd0).
    intros Hrest.
    apply IH in Hrest as (pre & name & l & post & -> & Hv & Hi & Herr).
    exists ((n0, l0) :: pre), name, l, post. split_and!; try done.
    + congruence.
    + rewrite Hi, Hi0, keys_cons, list_to_set_cons.
      rewrite (assoc_L (∪)). f_equal. apply (comm_L (∪)).
  - intros [= <- <-].
    apply inject_item_raises in Hstep as [Hself Herr].
    exists [], n0, l0, items. rewrite Hself. split_and!; try done.
    unfold keys. simpl. by rewrite (left_id_L _ (∪)).
Qed.
End inject_loop.

(** C7: [inject] goes through the namespace in its order.  When it
    returns, every name of the namespace is bound in the class to a field
    built from the field type and the arguments of its variable and bound
    to that name; the instance has received the default of the variable,
    through the field, when the variable is defined, and has not been
    assigned under that name when it is not; the names of the namespace
    have been added to the injected names; names out of the namespace are
    untouched in the class and in the instance.  When a field rejects a
    default, the names before the offending one, and only they, have been
    added.  In every case the bindings of the namespace are as before; the
    variable objects are only read. *)
Theorem inject_binds_and_assigns
    (Field___set__ : pyobj → pyobj → option pyobj)
    (h : gmap loc TestVar) (t t' : Target) (r : outcome unit) :
  dict_wf (vars (t_self t)) →
  inject Field___set__ h t = (r, t') →
  vars (t_self t') = vars (t_self t)
  ∧ (r = Returned () →
     _injected_vars (t_self t')
       = list_to_set (keys (vars (t_self t))) ∪ _injected_vars (t_self t)
     ∧ (∀ name l, (name, l) ∈ vars (t_self t) →
          ∃ var,
            h !! l = Some var
            ∧ dict_get (__dict__ (t_cls t')) name = Some (slot_of name var)
            ∧ (is_defined var = true →
               ∃ stored,
                 Field___set__ (slot_of name var) (default_value var)
                   = Some stored
                 ∧ t_obj t' !! name = Some stored)
            ∧ (is_defined var = false →
               t_obj t' !! name = t_obj t !! name))
     ∧ (∀ name, name ∉ keys (vars (t_self t)) →
          dict_get (__dict__ (t_cls t')) name
            = dict_get (__dict__ (t_cls t)) name
          ∧ t_obj t' !! name = t_obj t !! name))
  ∧ (∀ e, r = Raised e →
       ∃ pre name l post,
         vars (t_self t) = pre ++ (name, l) :: post
         ∧ _injected_vars (t_self t')
           = list_to_set (keys pre) ∪ _injected_vars (t_self t)
         ∧ ((h !! l = None ∧ e = ReferenceError l)
            ∨ (∃ var,
                 h !! l = Some var
                 ∧ is_defined var = true
                 ∧ Field___set__ (slot_of name var) (default_value var)
                   = None
                 ∧ e = FieldSetError name (default_value var)))).
Proof.
  intros Hwf Hrun.
  change (for_each (inject_item Field___set__ h) (vars (t_self t)) t
          = (r, t')) in Hrun.
  destruct r as [[]|e].
  - apply inject_loop_returns in Hrun as (Hv & Hi & Hother & Hin).
    split_and!; [done| |by intros e].
    intros _. split_and!; [done| |done].
    intros name l Hmem. destruct (Hin Hwf name l Hmem) as (var & Hh & Hc & Hd).
    exists var. split_and!; try done.
    + intros Hdef. by rewrite Hdef in Hd.
    + intros Hdef. by rewrite Hdef in Hd.
  - apply inject_loop_raises in Hrun
      as (pre & name & l & post & Heq & Hv & Hi & Herr).
    split_and!; [done|done|].
    intros e' [= <-]. by exists pre, name, l, post.
Qed.

Lemma inject_binds_and_assigns_witness :
  let t0 := mkTarget Hierarchy.Leaf_space Hierarchy.Leaf ∅ in
  let res := inject Hierarchy.int_field_set Hierarchy.heap_leaf t0 in
  vars (t_self res.2) = vars Hierarchy.Leaf_space
  ∧ (res.1 = Returned () →
     _injected_vars (t_self res.2)
       = list_to_set (keys (vars Hierarchy.Leaf_space)) ∪ ∅
     ∧ (∀ name l, (name, l) ∈ vars Hierarchy.Leaf_space →
          ∃ var,
            Hierarchy.heap_leaf !! l = Some var
            ∧ dict_get (__dict__ (t_cls res.2)) name
              = Some (slot_of name var)
            ∧ (is_defined var = true →
               ∃ stored,
                 Hierarchy.int_field_set (slot_of name var)
                   (default_value var) = Some stored
                 ∧ t_obj res.2 !! name = Some stored)
            ∧ (is_defined var = false →
               t_obj res.2 !! name = (∅ : gmap string pyobj) !! name))
     ∧ (∀ name, name ∉ keys (vars Hierarchy.Leaf_space) →
          dict_get (__dict__ (t_cls res.2)) name
            = dict_get (__dict__ Hierarchy.Leaf) name
          ∧ t_obj res.2 !! name = (∅ : gmap string pyobj) !! name))
  ∧ (∀ e, res.1 = Raised e →
       ∃ pre name l post,
         vars Hierarchy.Leaf_space = pre ++ (name, l) :: post
         ∧ _injected_vars (t_self res.2) = list_to_set (keys pre) ∪ ∅
         ∧ ((Hierarchy.heap_leaf !! l = None ∧ e = ReferenceError l)
            ∨ (∃ var,
                 Hierarchy.heap_leaf !! l = Some var
                 ∧ is_defined var = true
                 ∧ Hierarchy.int_field_set (slot_of name var)
                     (default_value var) = None
                 ∧ e = FieldSetError name (default_value var)))).
Proof.
  intros t0 res.
  apply (inject_binds_and_assigns Hierarchy.int_field_set Hierarchy.heap_leaf
           t0 res.2 res.1).
  - vm_compute. apply NoDup_cons. split.
    + intros Hin%list_elem_of_singleton. discriminate.
    + apply NoDup_singleton.
  - apply surjective_pairing.
Defined.

(** ** The hierarchy from end to end *)

(** The three classes are registered in turn, each namespace built by
    [VarSpace___init__] from that of its parent: the namespace of [Leaf]
    has [timeout] undefined and [retries] with the default 3, and an
    instance of [Leaf] gets [retries = 3] and no value for [timeout]. *)
Example hierarchy_end_to_end :
  let base := VarSpace___init__ [] Hierarchy.Base None Hierarchy.heap0 in
  let mid :=
    VarSpace___init__ [space base.2] Hierarchy.Mid None (heap base.2) in
  let leaf :=
    VarSpace___init__ [space mid.2] Hierarchy.Leaf None (heap mid.2) in
  let made :=
    inject Hierarchy.int_field_set (heap leaf.2)
      (mkTarget (space leaf.2) Hierarchy.Leaf ∅) in
  base.1 = Returned () ∧ mid.1 = Returned () ∧ leaf.1 = Returned ()
  ∧ space leaf.2 = Hierarchy.Leaf_space
  ∧ heap leaf.2 = Hierarchy.heap_leaf
  ∧ made.1 = Returned ()
  ∧ t_obj made.2 = {[ "retries" := PyInt 3 ]}
  ∧ elements (_injected_vars (t_self made.2)) = ["retries"; "timeout"].
Proof. split_and!; by vm_compute. Qed.

(** * Further properties *)

(** ** Building a variable *)

Lemma dict_get_filter_ne {V} (d : dict V) (key key' : string) :
  key' ≠ key →
  dict_get (filter (λ kv, kv.1 ≠ key) d) key' = dict_get d key'.
Proof.
  intros Hne. induction d as [|[k v] d IH]; [done|].
  destruct (decide (k = key)) as [->|Hk].
  - rewrite filter_cons_False by (simpl; tauto).
    simpl. by rewrite decide_False.
  - rewrite filter_cons_True by done. simpl. by rewrite IH.
Qed.

Lemma dict_get_filter_eq {V} (d : dict V) (key : string) :
  dict_get (filter (λ kv, kv.1 ≠ key) d) key = None.
Proof.
  induction d as [|[k v] d IH]; [done|].
  destruct (decide (k = key)) as [->|Hk].
  - by rewrite filter_cons_False by (simpl; tauto).
  - rewrite filter_cons_True by done. simpl. by rewrite decide_False.
Qed.

(** The constructor of [TestVar] takes as field type the [field] keyword,
    or [TypedField] without one.  It raises the [TypeError] of [issubclass]
    exactly when the field type is not a class, it raises the
    not-derived-from-[Field] error exactly when the field type is a class
    that is not derived from [Field], and it returns exactly when the field
    type is a class derived from [Field]; the variable then has that field
    type, the positional arguments as given, no name yet, and as its
    default the [value] keyword or the [_Undefined] marker without one, so
    that it is defined exactly when a value other than the marker was
    given. *)
Theorem TestVar_init_outcome (issubclass_Field : pyobj → bool)
    (a : list pyobj) (kw : dict pyobj) :
  let ft := default TypedField (dict_get kw "field") in
  let dv := default _Undefined (dict_get kw "value") in
  (is_class ft = false ↔
   TestVar___init__ issubclass_Field a kw = Raised (TypeError ft))
  ∧ (is_class ft = true ∧ issubclass_Field ft = false ↔
     TestVar___init__ issubclass_Field a kw
       = Raised (InvalidFieldTypeError ft))
  ∧ (is_class ft = true ∧ issubclass_Field ft = true ↔
     ∃ tv, TestVar___init__ issubclass_Field a kw = Returned tv)
  ∧ (∀ tv,
       TestVar___init__ issubclass_Field a kw = Returned tv →
       field_type tv = ft
       ∧ default_value tv = dv
       ∧ args tv = a
       ∧ name tv = None
       ∧ is_defined tv = is_not_Undefined dv).
Proof.
  intros ft dv.
  assert (TestVar___init__ issubclass_Field a kw =
          if is_class ft
          then
            if issubclass_Field ft
            then Returned
                   (mkTestVar ft dv a
                      (filter (λ kv, kv.1 ≠ "value")
                         (filter (λ kv, kv.1 ≠ "field") kw))
                      None)
            else Raised (InvalidFieldTypeError ft)
          else Raised (TypeError ft)) as ->.
  { unfold TestVar___init__, dict_pop. simpl.
    by rewrite dict_get_filter_ne. }
  destruct (is_class ft); [destruct (issubclass_Field ft)|]; split_and!.
  - split; [done|]. intros [=].
  - split; [by intros [_ [=]]|]. intros [=].
  - split; [eauto|done].
  - by intros tv [= <-].
  - split; [done|]. intros [=].
  - done.
  - split; [by intros [_ [=]]|]. by intros [tv [=]].
  - by intros tv [=].
  - done.
  - split; [by intros [[=] _]|]. intros [=].
  - split; [by intros [[=] _]|]. by intros [tv [=]].
  - by intros tv [=].
Qed.

(** The keyword arguments that a variable keeps for its field are the ones
    it was given without [field] and [value]: those two are never passed
    on, every other keyword is passed on with its value, and the order of
    the keywords is kept. *)
Theorem TestVar_init_kwargs (issubclass_Field : pyobj → bool)
    (a : list pyobj) (kw : dict pyobj) (tv : TestVar) :
  TestVar___init__ issubclass_Field a kw = Returned tv →
  dict_get (kwargs tv) "field" = None
  ∧ dict_get (kwargs tv) "value" = None
  ∧ (∀ k, k ≠ "field" → k ≠ "value" →
          dict_get (kwargs tv) k = dict_get kw k)
  ∧ kwargs tv `sublist_of` kw
  ∧ (dict_wf kw → dict_wf (kwargs tv)).
Proof.
  unfold TestVar___init__, dict_pop. simpl.
  destruct (is_class _); [|done].
  destruct (issubclass_Field _); [|done]. intros [= <-]. simpl.
  assert (filter (λ kv : string * pyobj, kv.1 ≠ "value")
            (filter (λ kv : string * pyobj, kv.1 ≠ "field") kw)
          `sublist_of` kw) as Hsub.
  { etrans; apply sublist_filter. }
  split_and!.
  - rewrite dict_get_filter_ne by done. apply dict_get_filter_eq.
  - apply dict_get_filter_eq.
  - intros k Hf Hv. by rewrite !dict_get_filter_ne.
  - done.
  - unfold dict_wf, keys. intros Hnd.
    eapply sublist_NoDup; [exact Hnd|]. by apply fmap_sublist.
Qed.

Lemma TestVar_init_kwargs_witness :
  let kw := [("value", PyInt 10); ("allow_none", PyBool true)] in
  let tv := mkTestVar TypedField (PyInt 10) [PyType "int"]
              [("allow_none", PyBool true)] None in
  dict_get (kwargs tv) "field" = None
  ∧ dict_get (kwargs tv) "value" = None
  ∧ (∀ k, k ≠ "field" → k ≠ "value" →
          dict_get (kwargs tv) k = dict_get kw k)
  ∧ kwargs tv `sublist_of` kw
  ∧ (dict_wf kw → dict_wf (kwargs tv)).
Proof.
  intros kw tv.
  apply (TestVar_init_kwargs (λ _, true) [PyType "int"] kw tv).
  reflexivity.
Defined.

Lemma TestVar_init_outcome_witness :
  field_type Hierarchy.timeout_var = TypedField
  ∧ default_value Hierarchy.timeout_var = PyInt 10
  ∧ args Hierarchy.timeout_var = [PyType "int"]
  ∧ name (mkTestVar TypedField (PyInt 10) [PyType "int"] [] None) = None
  ∧ is_defined Hierarchy.timeout_var = true.
Proof.
  destruct (TestVar_init_outcome (λ _, true) [PyType "int"]
              [("value", PyInt 10)]) as (_ & _ & _ & Hattrs).
  apply (Hattrs (mkTestVar TypedField (PyInt 10) [PyType "int"] [] None)).
  reflexivity.
Defined.

(** ** Invariants of the loops *)

Lemma for_each_invariant {S A} (P : S → Prop) (body : A → M S unit) items :
  (∀ x s r s', x ∈ items → P s → body x s = (r, s') → P s') →
  ∀ s r s', P s → for_each body items s = (r, s') → P s'.
Proof.
  induction items as [|x items IH]; intros Hbody s r s' HP.
  - by intros [= <- <-].
  - rewrite for_each_cons. destruct (body x s) as [[[]|e] s1] eqn:Hx.
    + apply IH.
      * intros y s0 r0 s0' Hy. apply Hbody. by right.
      * eapply Hbody; [left|done..].
    + intros [= <- <-]. eapply Hbody; [left|done..].
Qed.

Lemma for_each_relation {S A} (R : S → S → Prop) (body : A → M S unit) items :
  (∀ s, R s s) →
  (∀ s1 s2 s3, R s1 s2 → R s2 s3 → R s1 s3) →
  (∀ x s r s', body x s = (r, s') → R s s') →
  ∀ s r s', for_each body items s = (r, s') → R s s'.
Proof.
  intros Hrefl Htrans Hbody. induction items as [|x items IH]; intros s r s'.
  - by intros [= <- <-].
  - rewrite for_each_cons. destruct (body x s) as [[[]|e] s1] eqn:Hx.
    + intros Hrest. eapply Htrans; [by eapply Hbody|by eapply IH].
    + intros [= <- <-]. by eapply Hbody.
Qed.

Lemma dict_wf_snoc {V} (d : dict V) k v :
  dict_wf d → k ∉ keys d → dict_wf (d ++ [(k, v)]).
Proof.
  unfold dict_wf. intros Hwf Hk. rewrite keys_app. apply NoDup_app.
  split_and!; [done| |apply NoDup_singleton].
  intros x Hx ->%list_elem_of_singleton. done.
Qed.

(** ** When [join] succeeds, and what it keeps *)

Lemma join_item_keeps_wf cls item self r self' :
  dict_wf (vars self) → join_item cls item self = (r, self') →
  dict_wf (vars self').
Proof.
  destruct item as [key var]. intros Hwf.
  destruct (decide (key ∈ keys (vars self))) as [Hin|Hout].
  - rewrite join_item_clash by done. by intros [= <- <-].
  - rewrite join_item_fresh by done. intros [= <- <-]. simpl.
    by apply dict_wf_snoc.
Qed.

(** For a namespace [other] that is a proper dictionary, [join] returns
    exactly when no name of [other] is in the namespace it is joined into,
    and raises the duplicate-declaration error otherwise; whether it returns
    or raises, a namespace without repeated names is left without repeated
    names, and a join that returns keeps every injected name of both
    sides. *)
Theorem join_returns_iff_disjoint (other self : VarSpace) (cls : PyClass) :
  dict_wf (vars other) →
  ((∀ k, k ∈ keys (vars other) → k ∉ keys (vars self)) ↔
   ∃ self', join other cls self = (Returned (), self'))
  ∧ ((∃ k, k ∈ keys (vars other) ∧ k ∈ keys (vars self)) ↔
     ∃ k self',
       join other cls self =
         (Raised (DuplicateDeclarationError k (__qualname__ cls)), self'))
  ∧ (∀ r self',
       dict_wf (vars self) → join other cls self = (r, self') →
       dict_wf (vars self'))
  ∧ (∀ self',
       join other cls self = (Returned (), self') →
       _injected_vars self ⊆ _injected_vars self'
       ∧ _injected_vars other ⊆ _injected_vars self').
Proof.
  intros Hother.
  assert ((∃ k, k ∈ keys (vars other) ∧ k ∈ keys (vars self)) →
          ∃ k self',
            join other cls self =
              (Raised (DuplicateDeclarationError k (__qualname__ cls)), self'))
    as Hclash.
  { intros (k & Ho & Hs). by apply (join_clash other cls self k). }
  split_and!.
  - split.
    + intros Hdisj. eexists. by apply join_returns.
    + intros [self' Hret] k Ho Hs.
      destruct Hclash as (k' & s' & Hraise); [by eauto|]. congruence.
  - split; [done|]. intros (k & self' & Hraise).
    apply join_raises, join_loop_raises in Hraise
      as (done & key & var & rest & Heq & _ & Hin & _).
    exists key. split.
    + rewrite Heq, keys_app, elem_of_app, keys_cons. right. left.
    + rewrite keys_app, elem_of_app in Hin. destruct Hin as [Hin|Hin]; [done|].
      unfold dict_wf in Hother. rewrite Heq, keys_app, NoDup_app in Hother.
      destruct Hother as (_ & Hdisj & _). destruct (Hdisj key Hin).
      rewrite keys_cons. left.
  - intros r self' Hwf. unfold join. rewrite seq_run.
    destruct (for_each _ _ _) as [r1 s1] eqn:Hloop.
    assert (dict_wf (vars s1)) as Hs1.
    { eapply (for_each_invariant (λ s, dict_wf (vars s)));
        [|exact Hwf|exact Hloop].
      intros x s r0 s' _ Hs. by apply join_item_keeps_wf. }
    destruct r1 as [[]|e]; by intros [= <- <-].
  - intros self' Hret. apply join_returns_inv in Hret as ->. simpl.
    split; [apply union_subseteq_l|apply union_subseteq_r].
Qed.

Lemma join_returns_iff_disjoint_witness :
  ∃ self', join Hierarchy.Other_space Hierarchy.Leaf Hierarchy.Base_space
           = (Returned (), self').
Proof.
  destruct (join_returns_iff_disjoint Hierarchy.Other_space
              Hierarchy.Base_space Hierarchy.Leaf) as [Hiff _].
  - vm_compute. apply NoDup_singleton.
  - apply Hiff. intros k Hk Hk'. vm_compute in Hk, Hk'.
    apply list_elem_of_singleton in Hk, Hk'. congruence.
Defined.

(** ** What [extend] keeps *)

Section extend_invariants.
Implicit Types (w : World) (cls : PyClass) (key : string).

Lemma extend_local_heap_dom item w r w' :
  extend_local item w = (r, w') → dom (heap w') = dom (heap w).
Proof.
  destruct item as [key var]. pose proof (extend_local_cases key var w) as H.
  destruct var; [case_decide|destruct (dict_get _ _)..];
    rewrite H; intros [= <- <-]; simpl; try done; apply dom_alter_L.
Qed.

Lemma extend_body_heap_dom local item w r w' :
  extend_body local item w = (r, w') → dom (heap w') = dom (heap w).
Proof.
  destruct item as [key value].
  pose proof (extend_body_cases local key value w) as H.
  case_decide; [|destruct (dict_get _ _)];
    rewrite H; intros [= <- <-]; simpl; try done; apply dom_alter_L.
Qed.

Lemma extend_local_keeps_wf key var w r w' (D : gset loc) :
  (∀ l, var = TestVarRef l → l ∈ D) →
  dict_wf (vars (space w)) ∧ (∀ k l, (k, l) ∈ vars (space w) → l ∈ D) →
  extend_local (key, var) w = (r, w') →
  dict_wf (vars (space w')) ∧ (∀ k l, (k, l) ∈ vars (space w') → l ∈ D).
Proof.
  intros Hvar [Hwf Hall]. pose proof (extend_local_cases key var w) as H.
  destruct var as [l0| |]; [case_decide|destruct (dict_get _ _)..];
    rewrite H; intros [= <- <-]; simpl; try done.
  split; [by apply dict_wf_snoc|].
  intros k l. rewrite elem_of_app, list_elem_of_singleton.
  intros [Hin|[= -> ->]]; [by eapply Hall|by apply Hvar].
Qed.

Lemma touches_defaults_refl w : touches_defaults w w.
Proof. split; [apply grows_refl|]. intros l. by left. Qed.

Lemma define_define tv v v' : define (define tv v) v' = define tv v'.
Proof. done. Qed.

Lemma touches_defaults_trans w1 w2 w3 :
  touches_defaults w1 w2 → touches_defaults w2 w3 → touches_defaults w1 w3.
Proof.
  intros [Hg1 H1] [Hg2 H2]. split; [by eapply grows_trans|].
  intros l. destruct (H1 l) as [He1|(Hin1 & tv & v & Hb & Ha)],
    (H2 l) as [He2|(Hin2 & tv' & v' & Hb' & Ha')].
  - left. congruence.
  - right. split; [done|]. exists tv', v'. split; congruence.
  - right. split.
    + destruct Hg2 as [[ext ->] _]. rewrite fmap_app, elem_of_app. by left.
    + exists tv, v. split; congruence.
  - right. split; [done|]. exists tv, v'. split; [done|].
    rewrite Ha in Hb'. injection Hb' as <-. by rewrite Ha'.
Qed.

Lemma alter_touches_defaults w key l value :
  dict_get (vars (space w)) key = Some l →
  touches_defaults w
    (mkWorld (alter (λ tv, define tv value) l (heap w)) (space w)).
Proof.
  intros Hg. split; [apply grows_refl|]. intros l'. simpl.
  destruct (decide (l = l')) as [<-|Hne].
  - rewrite lookup_alter_eq. destruct (heap w !! l) as [tv|] eqn:Hh.
    + right. split; [|by exists tv, value].
      apply dict_get_Some_elem in Hg. apply list_elem_of_fmap.
      by exists (key, l).
    + by left.
  - left. by rewrite lookup_alter_ne.
Qed.

Lemma extend_local_touches item w r w' :
  extend_local item w = (r, w') → touches_defaults w w'.
Proof.
  destruct item as [key var]. pose proof (extend_local_cases key var w) as H.
  destruct var; [case_decide|destruct (dict_get _ _) eqn:Hg..];
    rewrite H; intros [= <- <-];
    try apply touches_defaults_refl;
    try (by eapply alter_touches_defaults).
  split; [split; [by apply prefix_app_r|done]|]. intros l. by left.
Qed.

Lemma extend_body_touches local item w r w' :
  extend_body local item w = (r, w') → touches_defaults w w'.
Proof.
  destruct item as [key value].
  pose proof (extend_body_cases local key value w) as H.
  case_decide; [|destruct (dict_get _ _) eqn:Hg];
    rewrite H; intros [= <- <-];
    try apply touches_defaults_refl.
  by eapply alter_touches_defaults.
Qed.

Lemma extend_touches cls w r w' :
  extend cls w = (r, w') → touches_defaults w w'.
Proof.
  unfold extend. rewrite seq_run.
  destruct (for_each extend_local _ w) as [[[]|e] w1] eqn:H1.
  - intros H2. eapply touches_defaults_trans.
    + eapply for_each_relation; [apply touches_defaults_refl
        |apply touches_defaults_trans|apply extend_local_touches|exact H1].
    + eapply for_each_relation; [apply touches_defaults_refl
        |apply touches_defaults_trans|apply extend_body_touches|exact H2].
  - intros [= <- <-].
    eapply for_each_relation; [apply touches_defaults_refl
      |apply touches_defaults_trans|apply extend_local_touches|exact H1].
Qed.
End extend_invariants.

(** Whether [extend] returns or raises, a namespace without repeated names
    whose bindings all refer to objects of the heap is left so, provided
    the variables that the class declares are objects of the heap; and the
    call neither creates nor removes a variable object. *)
Theorem extend_keeps_wellformed (cls : PyClass) (w w' : World)
    (r : outcome unit) :
  dict_wf (vars (space w)) →
  allocated (heap w) (space w) →
  (∀ k l, (k, TestVarRef l) ∈ _rfm_local_var_space cls →
          is_Some (heap w !! l)) →
  extend cls w = (r, w') →
  dict_wf (vars (space w'))
  ∧ allocated (heap w') (space w')
  ∧ dom (heap w') = dom (heap w).
Proof.
  intros Hwf Halloc Hlocal Hrun.
  set (P := λ w1 : World,
         dom (heap w1) = dom (heap w)
         ∧ dict_wf (vars (space w1))
         ∧ (∀ k l, (k, l) ∈ vars (space w1) → l ∈ dom (heap w))).
  assert (P w) as HP.
  { split_and!; [done..|]. intros k l Hin. apply elem_of_dom.
    by eapply Halloc. }
  assert (P w') as (Hdom & Hwf' & Hall').
  { revert Hrun. unfold extend. rewrite seq_run.
    destruct (for_each extend_local _ w) as [r1 w1] eqn:H1.
    assert (P w1) as HP1.
    { eapply (for_each_invariant P); [|exact HP|exact H1].
      intros [key var] s r0 s' Hin (Hd & Hw & Ha) Hstep. split.
      - apply extend_local_heap_dom in Hstep. congruence.
      - eapply (extend_local_keeps_wf key var); [|split; eassumption|done].
        intros l ->. apply elem_of_dom. by eapply Hlocal. }
    destruct r1 as [[]|e]; [|by intros [= <- <-]].
    apply (for_each_invariant P); [|done].
    intros x s r0 s' _ (Hd & Hw & Ha) Hstep.
    pose proof (extend_body_heap_dom _ _ _ _ _ Hstep) as Hd'.
    apply extend_body_grows in Hstep. unfold P. rewrite Hstep.
    split_and!; [congruence|done..]. }
  split_and!; [done| |done].
  intros k l Hin. apply elem_of_dom. rewrite Hdom. by eapply Hall'.
Qed.

(** Whatever [extend] does, a variable object differs afterwards from what
    it was by its default value at most: its field type, arguments and name
    are never changed, and no object is lost; an object that the namespace
    does not refer to after the call is exactly as it was. *)
Theorem extend_changes_defaults_only (cls : PyClass) (w w' : World)
    (r : outcome unit) :
  extend cls w = (r, w') →
  (∀ l tv, heap w !! l = Some tv →
           ∃ v, heap w' !! l = Some (define tv v))
  ∧ (∀ l, heap w !! l = None → heap w' !! l = None)
  ∧ (∀ l, l ∉ (vars (space w')).*2 → heap w' !! l = heap w !! l).
Proof.
  intros Hrun. apply extend_touches in Hrun as [_ Hall]. split_and!.
  - intros l tv Hh. destruct (Hall l) as [He|(_ & tv' & v & Hb & Ha)].
    + exists (default_value tv). rewrite He, Hh. by destruct tv.
    + exists v. congruence.
  - intros l Hh. destruct (Hall l) as [He|(_ & tv' & v & Hb & Ha)];
      congruence.
  - intros l Hout. by destruct (Hall l) as [He|[Hin _]].
Qed.

Lemma extend_keeps_wellformed_witness :
  let w := mkWorld Hierarchy.heap0 Hierarchy.Base_space in
  let res := extend Hierarchy.Leaf w in
  dict_wf (vars (space res.2))
  ∧ allocated (heap res.2) (space res.2)
  ∧ dom (heap res.2) = dom (heap w).
Proof.
  intros w res.
  apply (extend_keeps_wellformed Hierarchy.Leaf w res.2 res.1).
  - vm_compute. apply NoDup_singleton.
  - intros k l Hin. vm_compute in Hin.
    apply list_elem_of_singleton in Hin. injection Hin as -> ->.
    by eexists.
  - intros k l Hin. vm_compute in Hin.
    apply elem_of_cons in Hin as [Heq|Hin].
    + injection Heq as -> ->. by eexists.
    + apply list_elem_of_singleton in Hin. discriminate.
  - apply surjective_pairing.
Defined.

Lemma extend_changes_defaults_only_witness :
  let w := mkWorld Hierarchy.heap0 Hierarchy.Base_space in
  let res := extend Hierarchy.Mid w in
  (∀ l tv, heap w !! l = Some tv →
           ∃ v, heap res.2 !! l = Some (define tv v))
  ∧ (∀ l, heap w !! l = None → heap res.2 !! l = None)
  ∧ (∀ l, l ∉ (vars (space res.2)).*2 → heap res.2 !! l = heap w !! l).
Proof.
  intros w res.
  apply (extend_changes_defaults_only Hierarchy.Mid w res.2 res.1).
  apply surjective_pairing.
Defined.

(** ** The loop over the class body *)

Section class_body.
Implicit Types (w : World) (local : dict VarDirective).

Lemma body_loop_returns local items w :
  (∀ k, k ∈ keys items → k ∉ keys local) →
  ∃ h', for_each (extend_body local) items w
        = (Returned (), mkWorld h' (space w)).
Proof.
  revert w. induction items as [|[k0 v0] items IH]; intros w Hdisj.
  - exists (heap w). by destruct w.
  - rewrite for_each_cons.
    pose proof (extend_body_cases local k0 v0 w) as Hc.
    rewrite decide_False in Hc by (apply Hdisj; rewrite keys_cons; left).
    assert (∀ k, k ∈ keys items → k ∉ keys local) as Hrest.
    { intros k Hk. apply Hdisj. rewrite keys_cons. by right. }
    destruct (dict_get _ _) as [l0|]; rewrite Hc.
    + destruct (IH (mkWorld (alter (λ var, define var v0) l0 (heap w))
                      (space w)) Hrest) as [h' ->]. by exists h'.
    + by apply IH.
Qed.

Lemma body_loop_overlap_dec local (items : dict pyobj) :
  (∃ key, key ∈ keys local ∧ key ∈ keys items)
  ∨ (∀ k, k ∈ keys items → k ∉ keys local).
Proof.
  destruct (decide (Exists (λ k, k ∈ keys local) (keys items)))
    as [Hex|Hno].
  - left. apply Exists_exists in Hex as (k & Hk & Hl). eauto.
  - right. intros k Hk Hl. apply Hno, Exists_exists. eauto.
Qed.

Lemma vars_injective (d : dict loc) k k' l :
  NoDup d.*2 → (k, l) ∈ d → (k', l) ∈ d → k = k'.
Proof.
  induction d as [|[k0 l0] d IH]; simpl.
  - intros _ Hin. by apply elem_of_nil in Hin.
  - rewrite NoDup_cons, !elem_of_cons. intros [Hl0 Hnd] [H1|H1] [H2|H2].
    + congruence.
    + injection H1 as -> ->. destruct Hl0. apply list_elem_of_fmap.
      by exists (k', l0).
    + injection H2 as -> ->. destruct Hl0. apply list_elem_of_fmap.
      by exists (k, l0).
    + by apply IH.
Qed.

Lemma body_loop_assigns local items w :
  (∀ k, k ∈ keys items → k ∉ keys local) →
  dict_wf items →
  dict_wf (vars (space w)) →
  NoDup (vars (space w)).*2 →
  ∃ h',
    for_each (extend_body local) items w
      = (Returned (), mkWorld h' (space w))
    ∧ ∀ k l, (k, l) ∈ vars (space w) →
        h' !! l =
          match dict_get items k with
          | Some v => (λ tv, define tv v) <$> heap w !! l
          | None => heap w !! l
          end.
Proof.
  revert w. induction items as [|[k0 v0] items IH];
    intros w Hdisj Hitems Hwf Hinj.
  - exists (heap w). split; [by destruct w|done].
  - rewrite for_each_cons.
    pose proof (extend_body_cases local k0 v0 w) as Hc.
    rewrite decide_False in Hc by (apply Hdisj; rewrite keys_cons; left).
    assert (∀ k, k ∈ keys items → k ∉ keys local) as Hrest.
    { intros k Hk. apply Hdisj. rewrite keys_cons. by right. }
    unfold dict_wf in Hitems. rewrite keys_cons, NoDup_cons in Hitems.
    destruct Hitems as [Hk0 Hnd].
    destruct (dict_get (vars (space w)) k0) as [l0|] eqn:Hg; rewrite Hc.
    + destruct (IH (mkWorld (alter (λ var, define var v0) l0 (heap w))
                      (space w)) Hrest Hnd Hwf Hinj) as (h' & -> & Hall).
      exists h'. split; [done|]. intros k l Hin. simpl in Hall.
      rewrite (Hall k l Hin). simpl.
      destruct (decide (k0 = k)) as [<-|Hne].
      * apply dict_get_None in Hk0. rewrite Hk0.
        apply (dict_get_elem _ _ _ Hwf) in Hin.
        assert (l = l0) as -> by congruence.
        by rewrite lookup_alter_eq.
      * assert (l0 ≠ l) as Hl.
        { intros ->. apply Hne.
          apply dict_get_Some_elem in Hg.
          by apply (vars_injective (vars (space w)) k0 k l). }
        rewrite lookup_alter_ne by done. done.
    + destruct (IH w Hrest Hnd Hwf Hinj) as (h' & -> & Hall).
      exists h'. split; [done|]. intros k l Hin.
      rewrite (Hall k l Hin). simpl.
      destruct (decide (k0 = k)) as [<-|Hne]; [|done].
      apply (dict_get_elem _ _ _ Hwf) in Hin. congruence.
Qed.
End class_body.

(** Once the entries of the local namespace have been applied, [extend]
    can only fail with the multiple-actions error, and it does so exactly
    when some name of the class body is also a name of the local
    namespace; otherwise it returns.  The check for an undeclared variable
    in the loop over the class body never fails. *)
Theorem extend_after_local_namespace (cls : PyClass) (w w1 : World) :
  for_each extend_local (_rfm_local_var_space cls) w = (Returned (), w1) →
  ((∃ key, key ∈ keys (_rfm_local_var_space cls)
           ∧ key ∈ keys (__dict__ cls)) ↔
   ∃ k w', extend cls w = (Raised (MultipleActionsError k), w'))
  ∧ ((∀ k, k ∈ keys (__dict__ cls) → k ∉ keys (_rfm_local_var_space cls)) ↔
     ∃ h', extend cls w = (Returned (), mkWorld h' (space w1)))
  ∧ (∀ e w', extend cls w = (Raised e, w') →
       ∃ k, e = MultipleActionsError k
            ∧ k ∈ keys (_rfm_local_var_space cls)
            ∧ k ∈ keys (__dict__ cls)).
Proof.
  intros Hlocal.
  assert (extend cls w =
          for_each (extend_body (_rfm_local_var_space cls)) (__dict__ cls) w1)
    as Hrun by (unfold extend; by rewrite seq_run, Hlocal).
  rewrite Hrun.
  destruct (body_loop_overlap_dec (_rfm_local_var_space cls) (__dict__ cls))
    as [(key & Hl & Hd)|Hdisj].
  - destruct (body_loop_clash (_rfm_local_var_space cls) (__dict__ cls) w1
                key Hd Hl)
      as (pre & k & v & post & w' & Heq & Hpre & Hk & Hraise).
    rewrite Hraise.
    assert (k ∈ keys (__dict__ cls)) as Hkd.
    { rewrite Heq, keys_app, elem_of_app, keys_cons. right. left. }
    split_and!.
    + split; eauto.
    + split; [|by intros [h' [=]]]. intros Hno. by destruct (Hno key).
    + intros e w'' [= <- <-]. eauto.
  - destruct (body_loop_returns (_rfm_local_var_space cls) (__dict__ cls) w1
                Hdisj) as [h' Hret].
    rewrite Hret. split_and!.
    + split; [|by intros (k & w' & [=])].
      intros (key & Hl & Hd). by destruct (Hdisj key).
    + split; eauto.
    + by intros e w'.
Qed.

(** An assignment in the class body sets the default of the variable of
    that name: when the local namespace has been applied, no name of the
    class body is in it, and distinct names of the namespace refer to
    distinct objects, [extend] returns with the namespace it had after the
    local entries, every variable whose name is assigned in the class body
    has the assigned value as its default, and every other variable is as
    the local entries left it. *)
Theorem extend_class_body_assignments (cls : PyClass) (w w1 : World) :
  for_each extend_local (_rfm_local_var_space cls) w = (Returned (), w1) →
  (∀ k, k ∈ keys (__dict__ cls) → k ∉ keys (_rfm_local_var_space cls)) →
  dict_wf (__dict__ cls) →
  dict_wf (vars (space w1)) →
  NoDup (vars (space w1)).*2 →
  ∃ h',
    extend cls w = (Returned (), mkWorld h' (space w1))
    ∧ ∀ k l, (k, l) ∈ vars (space w1) →
        h' !! l =
          match dict_get (__dict__ cls) k with
          | Some v => (λ tv, define tv v) <$> heap w1 !! l
          | None => heap w1 !! l
          end.
Proof.
  intros Hlocal Hdisj Hdict Hwf Hinj.
  destruct (body_loop_assigns (_rfm_local_var_space cls) (__dict__ cls) w1
              Hdisj Hdict Hwf Hinj) as (h' & Hrun & Hall).
  exists h'. split; [|done].
  unfold extend. by rewrite seq_run, Hlocal.
Qed.

Lemma extend_after_local_namespace_witness :
  ∃ h',
    extend Hierarchy.Mid_assign (mkWorld Hierarchy.heap0 Hierarchy.Base_space)
    = (Returned (), mkWorld h' Hierarchy.Base_space).
Proof.
  destruct (extend_after_local_namespace Hierarchy.Mid_assign
              (mkWorld Hierarchy.heap0 Hierarchy.Base_space)
              (mkWorld Hierarchy.heap0 Hierarchy.Base_space))
    as (_ & Hiff & _).
  - reflexivity.
  - apply Hiff. intros k _ Hin. vm_compute in Hin.
    by apply elem_of_nil in Hin.
Defined.

Lemma extend_class_body_assignments_witness :
  ∃ h',
    extend Hierarchy.Mid_assign (mkWorld Hierarchy.heap0 Hierarchy.Base_space)
    = (Returned (), mkWorld h' Hierarchy.Base_space)
    ∧ ∀ k l, (k, l) ∈ vars Hierarchy.Base_space →
        h' !! l =
          match dict_get (__dict__ Hierarchy.Mid_assign) k with
          | Some v => (λ tv, define tv v) <$> Hierarchy.heap0 !! l
          | None => Hierarchy.heap0 !! l
          end.
Proof.
  apply (extend_class_body_assignments Hierarchy.Mid_assign
           (mkWorld Hierarchy.heap0 Hierarchy.Base_space)
           (mkWorld Hierarchy.heap0 Hierarchy.Base_space)).
  - reflexivity.
  - intros k _ Hin. vm_compute in Hin. by apply elem_of_nil in Hin.
  - vm_compute. apply NoDup_cons. split; [|apply NoDup_singleton].
    intros Hin%list_elem_of_singleton. discriminate.
  - vm_compute. apply NoDup_singleton.
  - vm_compute. apply NoDup_singleton.
Defined.

(** ** Injected names and the sanity check *)

Section injected_names.
Variable Field___set__ : pyobj → pyobj → option pyobj.
Implicit Types (t : Target) (h : gmap loc TestVar) (self : VarSpace).

Lemma sanity_all_injected cls illegal_names self :
  (∀ k, k ∈ keys (vars self) → k ∈ _injected_vars self) →
  sanity cls illegal_names self = (Returned (), self).
Proof.
  intros Hall.
  change (for_each
            (sanity_key cls
               match illegal_names with
               | None => dir cls
               | Some names => names
               end) (keys (vars self)) self = (Returned (), self)).
  destruct (sanity_loop cls
              match illegal_names with
              | None => dir cls
              | Some names => names
              end (keys (vars self)) self)
    as [(pre & key & post & Hks & _ & _ & Hn & _)|[_ Hret]]; [|done].
  destruct Hn. apply Hall. rewrite Hks, elem_of_app, elem_of_cons. tauto.
Qed.

Lemma sanity_raises_inv cls illegal_names self e s :
  sanity cls illegal_names self = (Raised e, s) →
  ∃ key, e = NameClashError key (__qualname__ cls)
         ∧ key ∈ keys (vars self) ∧ key ∉ _injected_vars self.
Proof.
  change (sanity cls illegal_names self) with
    (for_each
       (sanity_key cls
          match illegal_names with
          | None => dir cls
          | Some names => names
          end) (keys (vars self)) self).
  destruct (sanity_loop cls
              match illegal_names with
              | None => dir cls
              | Some names => names
              end (keys (vars self)) self)
    as [(pre & key & post & Hks & _ & _ & Hn & ->)|[_ ->]]; [|done].
  intros [= <- <-]. exists key. split_and!; [done| |done].
  rewrite Hks, elem_of_app, elem_of_cons. tauto.
Qed.

Lemma dict_set_same {V} (d : dict V) k v :
  dict_get d k = Some v → dict_set d k v = d.
Proof.
  induction d as [|[k0 w] d IH]; simpl; [done|].
  case_decide.
  - by intros [= ->].
  - intros Hg. by rewrite IH.
Qed.

Lemma inject_loop_again h items t :
  (∀ name l, (name, l) ∈ items →
     ∃ var,
       h !! l = Some var
       ∧ dict_get (__dict__ (t_cls t)) name = Some (slot_of name var)
       ∧ (is_defined var = true →
          is_Some (Field___set__ (slot_of name var) (default_value var)))) →
  ∃ obj',
    for_each (inject_item Field___set__ h) items t =
      (Returned (),
       mkTarget
         (mkVarSpace (vars (t_self t))
            (list_to_set (keys items) ∪ _injected_vars (t_self t)))
         (t_cls t) obj').
Proof.
  revert t. induction items as [|[n0 l0] items IH]; intros t Hall.
  - exists (t_obj t). simpl. unfold ret, keys. simpl.
    rewrite (left_id_L _ (∪)). by destruct t as [[] ? ?].
  - rewrite for_each_cons.
    destruct (Hall n0 l0) as (var & Hh & Hc & Hset); [left|].
    rewrite (inject_item_step _ h n0 l0 var) by done. simpl.
    assert (bind_slot n0 (slot_of n0 var) (t_cls t) = t_cls t) as ->.
    { unfold bind_slot. rewrite dict_set_same by done. by destruct (t_cls t). }
    assert (∀ obj1,
      ∃ obj',
        for_each (inject_item Field___set__ h) items
          (mkTarget
             (mkVarSpace (vars (t_self t)) ({[n0]} ∪ _injected_vars (t_self t)))
             (t_cls t) obj1) =
          (Returned (),
           mkTarget
             (mkVarSpace (vars (t_self t))
                (list_to_set (keys ((n0, l0) :: items))
                 ∪ _injected_vars (t_self t)))
             (t_cls t) obj')) as Hrest.
    { intros obj1.
      destruct (IH (mkTarget
                      (mkVarSpace (vars (t_self t))
                         ({[n0]} ∪ _injected_vars (t_self t)))
                      (t_cls t) obj1)) as [obj' ->].
      - intros name l Hin. apply Hall. by right.
      - exists obj'. simpl. do 3 f_equal.
        rewrite !(assoc_L (∪)). f_equal. apply (comm_L (∪)). }
    destruct (is_defined var) eqn:Hd; [|by apply Hrest].
    destruct (Hset eq_refl) as [stored ->]. by apply Hrest.
Qed.
End injected_names.

(** After an injection that returned, the sanity check of the same
    namespace returns for any class and any set of reserved names: every
    name of the namespace is now among the injected names, so that the
    fields bound in the class by the injection are not reported as
    clashes. *)
Theorem inject_then_sanity (Field___set__ : pyobj → pyobj → option pyobj)
    (h : gmap loc TestVar) (t t' : Target) (cls : PyClass)
    (illegal_names : option (gset string)) :
  inject Field___set__ h t = (Returned (), t') →
  (∀ k, k ∈ keys (vars (t_self t')) → k ∈ _injected_vars (t_self t'))
  ∧ sanity cls illegal_names (t_self t') = (Returned (), t_self t').
Proof.
  intros Hrun.
  change (for_each (inject_item Field___set__ h) (vars (t_self t)) t
          = (Returned (), t')) in Hrun.
  apply inject_loop_returns in Hrun as (Hv & Hi & _ & _).
  assert (∀ k, k ∈ keys (vars (t_self t')) → k ∈ _injected_vars (t_self t'))
    as Hall.
  { intros k. rewrite Hv, Hi, elem_of_union, elem_of_list_to_set. tauto. }
  split; [done|]. by apply sanity_all_injected.
Qed.

(** The injected names are carried over to the descendants: when every
    name of an ancestor has been injected and the ancestor is joined into
    the namespace of a class, the sanity check that follows the extension
    of that namespace, if it fails, reports a name that does not come from
    that ancestor. *)
Theorem inherited_injected_names_never_clash (A self self1 : VarSpace)
    (cls cls' : PyClass) (h : gmap loc TestVar) (r : outcome unit)
    (w' : World) (illegal_names : option (gset string)) (e : Error)
    (s : VarSpace) :
  (∀ k, k ∈ keys (vars A) → k ∈ _injected_vars A) →
  join A cls self = (Returned (), self1) →
  extend cls (mkWorld h self1) = (r, w') →
  sanity cls' illegal_names (space w') = (Raised e, s) →
  ∃ key, e = NameClashError key (__qualname__ cls')
         ∧ key ∈ keys (vars (space w'))
         ∧ key ∉ keys (vars A).
Proof.
  intros HA Hjoin Hext Hsan.
  apply sanity_raises_inv in Hsan as (key & -> & Hk & Hn).
  exists key. split_and!; [done..|].
  intros HkA. apply Hn.
  apply extend_grows in Hext as [_ ->]. simpl.
  apply join_returns_inv in Hjoin as ->. simpl.
  apply elem_of_union. right. by apply HA.
Qed.

(** A second injection of the same namespace, for another instance of the
    class, returns if the first did, and leaves the namespace, its injected
    names and the fields bound in the class as the first injection left
    them; the second instance gets, for every defined variable, the value
    the first instance got. *)
Theorem inject_again (Field___set__ : pyobj → pyobj → option pyobj)
    (h : gmap loc TestVar) (t t1 : Target) (obj2 : gmap string pyobj) :
  dict_wf (vars (t_self t)) →
  inject Field___set__ h t = (Returned (), t1) →
  ∃ t2,
    inject Field___set__ h (mkTarget (t_self t1) (t_cls t1) obj2)
      = (Returned (), t2)
    ∧ t_self t2 = t_self t1
    ∧ t_cls t2 = t_cls t1
    ∧ ∀ name l var,
        (name, l) ∈ vars (t_self t) → h !! l = Some var →
        is_defined var = true →
        t_obj t2 !! name = t_obj t1 !! name.
Proof.
  intros Hwf Hrun.
  change (for_each (inject_item Field___set__ h) (vars (t_self t)) t
          = (Returned (), t1)) in Hrun.
  apply inject_loop_returns in Hrun as (Hv & Hi & _ & Hin).
  specialize (Hin Hwf).
  destruct (inject_loop_again Field___set__ h (vars (t_self t1))
              (mkTarget (t_self t1) (t_cls t1) obj2)) as [obj' Hagain].
  { simpl. rewrite Hv. intros name l Hmem.
    destruct (Hin name l Hmem) as (var & Hh & Hc & Hd).
    exists var. split_and!; [done..|].
    intros Hdef. rewrite Hdef in Hd. destruct Hd as (stored & -> & _).
    by eexists. }
  simpl in Hagain. eexists. split; [exact Hagain|]. simpl.
  split_and!.
  - destruct (t_self t1) as [vs inj]. simpl in *. f_equal.
    rewrite Hv, Hi, (assoc_L (∪)). f_equal. apply union_idemp_L.
  - done.
  - intros name l var Hmem Hh Hdef.
    apply inject_loop_returns in Hagain as (_ & _ & _ & Hin2).
    simpl in Hin2. rewrite Hv in Hin2. specialize (Hin2 Hwf).
    destruct (Hin name l Hmem) as (var1 & Hh1 & _ & Hd1).
    destruct (Hin2 name l Hmem) as (var2 & Hh2 & _ & Hd2).
    assert (var1 = var) as -> by congruence.
    assert (var2 = var) as -> by congruence.
    rewrite Hdef in Hd1, Hd2.
    destruct Hd1 as (s1 & Hs1 & ->), Hd2 as (s2 & Hs2 & ->). congruence.
Qed.

Lemma inject_then_sanity_witness :
  let res := inject Hierarchy.int_field_set Hierarchy.heap_leaf
               (mkTarget Hierarchy.Leaf_space Hierarchy.Leaf ∅) in
  (∀ k, k ∈ keys (vars (t_self res.2)) → k ∈ _injected_vars (t_self res.2))
  ∧ sanity Hierarchy.Unrelated_member None (t_self res.2)
    = (Returned (), t_self res.2).
Proof.
  intros res.
  apply (inject_then_sanity Hierarchy.int_field_set Hierarchy.heap_leaf
           (mkTarget Hierarchy.Leaf_space Hierarchy.Leaf ∅)).
  by vm_compute.
Defined.

Lemma inherited_injected_names_never_clash_witness :
  let self1 := (join Hierarchy.Other_space Hierarchy.Declares_member
                  VarSpace_empty).2 in
  let res := extend Hierarchy.Declares_member
               (mkWorld Hierarchy.heap0 self1) in
  ∃ key,
    NameClashError "timeout" "Leaf" = NameClashError key "Leaf"
    ∧ key ∈ keys (vars (space res.2))
    ∧ key ∉ keys (vars Hierarchy.Other_space).
Proof.
  intros self1 res.
  apply (inherited_injected_names_never_clash Hierarchy.Other_space
           VarSpace_empty self1 Hierarchy.Declares_member
           Hierarchy.Declares_member Hierarchy.heap0 res.1 res.2 None
           (NameClashError "timeout" "Leaf") (space res.2)).
  - intros k Hk. vm_compute in Hk. apply list_elem_of_singleton in Hk.
    subst k. by vm_compute.
  - by vm_compute.
  - apply surjective_pairing.
  - by vm_compute.
Defined.

Lemma inject_again_witness :
  let t0 := mkTarget Hierarchy.Leaf_space Hierarchy.Leaf ∅ in
  let t1 := (inject Hierarchy.int_field_set Hierarchy.heap_leaf t0).2 in
  ∃ t2,
    inject Hierarchy.int_field_set Hierarchy.heap_leaf
      (mkTarget (t_self t1) (t_cls t1) ∅) = (Returned (), t2)
    ∧ t_self t2 = t_self t1
    ∧ t_cls t2 = t_cls t1
    ∧ ∀ name l var,
        (name, l) ∈ vars (t_self t0) → Hierarchy.heap_leaf !! l = Some var →
        is_defined var = true →
        t_obj t2 !! name = t_obj t1 !! name.
Proof.
  intros t0 t1.
  apply (inject_again Hierarchy.int_field_set Hierarchy.heap_leaf t0 t1 ∅).
  - vm_compute. apply NoDup_cons. split; [|apply NoDup_singleton].
    intros Hin%list_elem_of_singleton. discriminate.
  - by vm_compute.
Defined.

(** * Properties of the pretty printer *)

Section printer_strings.
Import Printer.

Lemma string_app_cons (x : ascii) (a b : string) :
  String x a +:+ b = String x (a +:+ b).
Proof. done. Qed.

Lemma string_app_nil_l (b : string) : "" +:+ b = b.
Proof. done. Qed.

Lemma string_app_assoc (a b c : string) : (a +:+ b) +:+ c = a +:+ b +:+ c.
Proof.
  induction a as [|x a IH]; [done|]. rewrite !string_app_cons. by rewrite IH.
Qed.

Lemma string_app_nil_r (a : string) : a +:+ "" = a.
Proof.
  induction a as [|x a IH]; [done|]. rewrite string_app_cons. by rewrite IH.
Qed.

Lemma string_length_app (a b : string) :
  String.length (a +:+ b) = (String.length a + String.length b)%nat.
Proof.
  induction a as [|x a IH]; [done|]. rewrite string_app_cons. simpl.
  by rewrite IH.
Qed.

Lemma str_mul_succ (n : nat) (s : string) :
  str_mul (Z.of_nat (S n)) s = s +:+ str_mul (Z.of_nat n) s.
Proof. unfold str_mul. by rewrite !Nat2Z.id. Qed.

Lemma str_mul_nonpos (n : Z) (s : string) : (n ≤ 0)%Z → str_mul n s = "".
Proof.
  intros Hn. unfold str_mul.
  replace (Z.to_nat n) with 0%nat by lia. done.
Qed.

Lemma str_mul_length (n : Z) (c : ascii) :
  len (str_mul n (String c "")) = Z.max 0 n.
Proof.
  unfold len. destruct (decide (n ≤ 0)%Z) as [Hn|Hn].
  - rewrite str_mul_nonpos by done. simpl. lia.
  - rewrite <-(Z2Nat.id n) by lia. generalize (Z.to_nat n) as k. intros k.
    induction k as [|k IH]; [done|].
    rewrite str_mul_succ, string_length_app. simpl String.length. lia.
Qed.

Lemma isspace_space : isspace " " = true.
Proof. done. Qed.

Lemma lstrip_spaces (n : Z) (s : string) :
  lstrip (str_mul n " " +:+ s) = lstrip s.
Proof.
  destruct (decide (n ≤ 0)%Z) as [Hn|Hn].
  - by rewrite str_mul_nonpos.
  - rewrite <-(Z2Nat.id n) by lia. generalize (Z.to_nat n) as k. intros k.
    induction k as [|k IH]; [done|].
    rewrite str_mul_succ, string_app_assoc, string_app_cons, string_app_nil_l.
    simpl. apply IH.
Qed.

Lemma rstrip_only_spaces (n : Z) : rstrip (str_mul n " ") = "".
Proof.
  destruct (decide (n ≤ 0)%Z) as [Hn|Hn].
  - by rewrite str_mul_nonpos.
  - rewrite <-(Z2Nat.id n) by lia. generalize (Z.to_nat n) as k. intros k.
    induction k as [|k IH]; [done|].
    rewrite str_mul_succ, string_app_cons, string_app_nil_l.
    simpl. by rewrite IH.
Qed.

Lemma lstrip_only_spaces (n : Z) : lstrip (str_mul n " ") = "".
Proof.
  rewrite <-(string_app_nil_r (str_mul n " ")). by rewrite lstrip_spaces.
Qed.

Lemma rstrip_spaces (s : string) (n : Z) :
  rstrip (s +:+ str_mul n " ") = rstrip s.
Proof.
  induction s as [|c s IH].
  - rewrite string_app_nil_l. apply rstrip_only_spaces.
  - rewrite string_app_cons. simpl. by rewrite IH.
Qed.

Lemma strip_spaces_r (s : string) (n : Z) :
  strip (s +:+ str_mul n " ") = strip s.
Proof.
  unfold strip. induction s as [|c s IH].
  - rewrite string_app_nil_l. by rewrite lstrip_only_spaces.
  - rewrite string_app_cons. simpl. destruct (isspace c); [done|].
    rewrite <-string_app_cons. apply rstrip_spaces.
Qed.

Lemma strip_pad (left right : Z) (s : string) :
  strip (pad left right s) = strip s.
Proof.
  unfold pad, strip. rewrite lstrip_spaces. apply strip_spaces_r.
Qed.

Lemma strip_justify (just : option string) (width : Z) (s : string) :
  strip (justify just width s) = strip s.
Proof.
  unfold justify, center, rjust, ljust.
  repeat case_decide; repeat case_match; try done; apply strip_pad.
Qed.
End printer_strings.

(** Once [reset_progress] has set the two progress attributes, [status]
    never raises: it hands exactly one record to the logger, at the level it
    was given, whose text ends with the message, and leaves every attribute
    of the printer but the counter as it was.  The counter goes up by one
    exactly when the stripped status is one of [ABORT], [OK], [SKIP] and
    [FAIL] and the counter is below the total; otherwise it stays, so that
    it never decreases and never passes the total. *)
Theorem status_progress {level : Type}
    (color_colorize : string → Printer.Color → string)
    (p : Printer.PrettyPrinter) (records : list (level * string))
    (st message : string) (just : option string) (lvl : level)
    (count total : Z) :
  Printer._progress_count p = Some count →
  Printer._progress_total p = Some total →
  ∃ count' text,
    Printer.status level color_colorize st message just lvl (p, records) =
      (Printer.Ok (),
       (Printer.mkPrinter (Printer.colorize p) (Printer.line_width p)
          (Printer.status_width p) (Some count') (Some total),
        records ++ [(lvl, text)]))
    ∧ (count' = (count + 1)%Z ↔
       Printer.strip st ∈ Printer.progress_statuses ∧ (count < total)%Z)
    ∧ (count' = count ∨ count' = (count + 1)%Z)
    ∧ ((count ≤ total)%Z → (count' ≤ total)%Z)
    ∧ ∃ prefix, text = prefix +:+ message.
Proof.
  intros Hc Ht. destruct p as [c lw sw pc pt]. simpl in Hc, Ht. subst pc pt.
  unfold Printer.status. rewrite strip_justify.
  cbn [Printer._progress_count Printer._progress_total Printer.colorize
       Printer.line_width Printer.status_width].
  destruct (bool_decide (Printer.strip st ∈ Printer.progress_statuses))
    eqn:Hin.
  - apply bool_decide_eq_true in Hin.
    destruct (count <? total)%Z eqn:Hlt.
    + apply Z.ltb_lt in Hlt. eexists (count + 1)%Z, _.
      split; [reflexivity|].
      split_and!; [tauto|tauto|lia|eexists; reflexivity].
    + apply Z.ltb_ge in Hlt. eexists count, _.
      split; [reflexivity|].
      split_and!; [|tauto|lia|eexists; reflexivity].
      split; [lia|]. intros [_ ?]. lia.
  - apply bool_decide_eq_false in Hin. eexists count, _.
    split; [reflexivity|].
    split_and!; [split; [lia|tauto]|tauto|lia|eexists; reflexivity].
Qed.

Lemma status_progress_witness :
  ∃ count' text,
    Printer.status Z (λ s _, s) "OK" "test_a" (Some "right") 20%Z
      (Printer.mkPrinter true 78 10 (Some 2%Z) (Some 3%Z), []) =
      (Printer.Ok (),
       (Printer.mkPrinter true 78 10 (Some count') (Some 3%Z),
        [] ++ [(20%Z, text)]))
    ∧ (count' = (2 + 1)%Z ↔
       Printer.strip "OK" ∈ Printer.progress_statuses ∧ (2 < 3)%Z)
    ∧ (count' = 2%Z ∨ count' = (2 + 1)%Z)
    ∧ ((2 ≤ 3)%Z → (count' ≤ 3)%Z)
    ∧ ∃ prefix, text = prefix +:+ "test_a".
Proof.
  apply (status_progress (λ s _, s)
           (Printer.mkPrinter true 78 10 (Some 2%Z) (Some 3%Z)) []
           "OK" "test_a" (Some "right") 20%Z 2 3); reflexivity.
Defined.

(** The justification asked of [status] changes the layout of the status
    only: stripping the justified status gives the same as stripping the
    status itself, so that whether the call raises, the colour that is
    chosen, and the printer after the call, its progress counter included,
    are the same for every justification. *)
Theorem status_ignores_justification {level : Type}
    (color_colorize : string → Printer.Color → string)
    (p : Printer.PrettyPrinter) (records : list (level * string))
    (st message : string) (just1 just2 : option string) (lvl : level) :
  let run just :=
    Printer.status level color_colorize st message just lvl (p, records) in
  Printer.strip (Printer.justify just1 (Printer.status_width p - 2) st)
    = Printer.strip st
  ∧ Printer.status_color
      (Printer.strip (Printer.justify just1 (Printer.status_width p - 2) st))
    = Printer.status_color
        (Printer.strip (Printer.justify just2 (Printer.status_width p - 2) st))
  ∧ (run just1).1 = (run just2).1
  ∧ (run just1).2.1 = (run just2).2.1
  ∧ length (run just1).2.2 = length (run just2).2.2.
Proof.
  intros run. split_and!.
  - apply strip_justify.
  - by rewrite !strip_justify.
  - unfold run, Printer.status. rewrite !strip_justify.
    destruct (bool_decide _); [|done].
    by destruct (Printer._progress_count p), (Printer._progress_total p).
  - unfold run, Printer.status. rewrite !strip_justify.
    destruct (bool_decide _); [|done].
    by destruct (Printer._progress_count p), (Printer._progress_total p).
  - unfold run, Printer.status, Printer.log. rewrite !strip_justify.
    destruct (bool_decide _); [|simpl; by rewrite !length_app].
    destruct (Printer._progress_count p), (Printer._progress_total p);
      try done.
    simpl. by rewrite !length_app.
Qed.

(** [separator] with one of the two known styles hands exactly one record
    to the logger, at the level [INFO]: the message after a bracketed line
    of [=] or of [-] that has as many characters as the status width (none
    when that is negative); it raises the unknown-line-style error, logging
    nothing, exactly when the style is neither of the two.  [timestamp]
    appends the formatted time to the message; without a style, or with an
    empty one, it logs that text as one record at the level [INFO], and
    with a non-empty style it does what [separator] does with that style
    and that text, so that it raises exactly when it is given a non-empty
    style that is not known.  The printer itself is never changed. *)
Theorem separator_outcome {level : Type} (INFO : level) (strftime : string)
    (p : Printer.PrettyPrinter) (records : list (level * string)) :
  (∀ msg,
     Printer.separator level INFO "short double line" msg (p, records) =
       (Printer.Ok (),
        (p, records ++
            [(INFO, "[" +:+ Printer.str_mul (Printer.status_width p) "="
                    +:+ "] " +:+ msg)])))
  ∧ (∀ msg,
       Printer.separator level INFO "short single line" msg (p, records) =
         (Printer.Ok (),
          (p, records ++
              [(INFO, "[" +:+ Printer.str_mul (Printer.status_width p) "-"
                      +:+ "] " +:+ msg)])))
  ∧ Printer.len (Printer.str_mul (Printer.status_width p) "=")
    = Z.max 0 (Printer.status_width p)
  ∧ Printer.len (Printer.str_mul (Printer.status_width p) "-")
    = Z.max 0 (Printer.status_width p)
  ∧ (∀ linestyle msg,
       linestyle ≠ "short double line" ∧ linestyle ≠ "short single line" ↔
       Printer.separator level INFO linestyle msg (p, records) =
         (Printer.Raise (Printer.ValueError "unknown line style"),
          (p, records)))
  ∧ (∀ msg,
       Printer.timestamp level INFO strftime msg None (p, records) =
         (Printer.Ok (),
          (p, records ++ [(INFO, msg +:+ " " +:+ strftime)])))
  ∧ (∀ msg,
       Printer.timestamp level INFO strftime msg (Some "") (p, records) =
         (Printer.Ok (),
          (p, records ++ [(INFO, msg +:+ " " +:+ strftime)])))
  ∧ (∀ msg style,
       style ≠ "" →
       Printer.timestamp level INFO strftime msg (Some style) (p, records) =
         Printer.separator level INFO style (msg +:+ " " +:+ strftime)
           (p, records))
  ∧ (∀ msg sep,
       (∃ style, sep = Some style ∧ style ≠ ""
                 ∧ style ≠ "short double line"
                 ∧ style ≠ "short single line") ↔
       Printer.timestamp level INFO strftime msg sep (p, records) =
         (Printer.Raise (Printer.ValueError "unknown line style"),
          (p, records))).
Proof.
  assert (∀ linestyle msg,
       linestyle ≠ "short double line" ∧ linestyle ≠ "short single line" ↔
       Printer.separator level INFO linestyle msg (p, records) =
         (Printer.Raise (Printer.ValueError "unknown line style"),
          (p, records))) as Hsep.
  { intros linestyle msg. unfold Printer.separator.
    destruct (decide (linestyle = "short double line")) as [Hd|Hd].
    { split; [by intros [? _]|by intros [=]]. }
    destruct (decide (linestyle = "short single line")) as [Hs|Hs].
    { split; [by intros [_ ?]|by intros [=]]. }
    done. }
  assert (∀ msg style,
       style ≠ "" →
       Printer.timestamp level INFO strftime msg (Some style) (p, records) =
         Printer.separator level INFO style (msg +:+ " " +:+ strftime)
           (p, records)) as Hstyle.
  { intros msg style Hne. unfold Printer.timestamp.
    by rewrite decide_False. }
  split_and!; try done.
  - apply str_mul_length.
  - apply str_mul_length.
  - intros msg sep. split.
    + intros (style & -> & Hne & Hd & Hs). rewrite Hstyle by done.
      by apply Hsep.
    + destruct sep as [style|]; [|by intros [=]].
      destruct (decide (style = "")) as [->|Hne]; [by intros [=]|].
      rewrite Hstyle by done. intros [Hd Hs]%Hsep. by exists style.
Qed.

Lemma separator_outcome_witness :
  Printer.timestamp Z 20%Z "Thu Jan  1 00:00:00 1970+0000" "Started on"
    (Some "short double line") (Printer.__init__, []) =
  Printer.separator Z 20%Z "short double line"
    ("Started on" +:+ " " +:+ "Thu Jan  1 00:00:00 1970+0000")
    (Printer.__init__, []).
Proof.
  destruct (separator_outcome 20%Z "Thu Jan  1 00:00:00 1970+0000"
              Printer.__init__ []) as (_ & _ & _ & _ & _ & _ & _ & Hstyle & _).
  apply Hstyle. discriminate.
Defined.
